(** * The application core of Icinga 2 (base/application.cpp)

    A shallow embedding of [icinga::Application]: the process-wide statics,
    the component registry, the dynamic loader, the executable-path lookup,
    the top-level fault boundary of [Run] and the event loop, followed by
    the properties the specification states about them.

    Conventions.
    - The statics of the class ([m_Instance], [m_ShuttingDown], ...), the
      fields of the one application object and the function-local static of
      [GetExePath] are the fields of one record, [Process].
    - Calls that leave the class (component methods, the logger, the timer
      and event subsystems, the operating system) are recorded, in call
      order, in the [trace] of the process.
    - What the operating system or a collaborator answers is an argument of
      the function that asks (an oracle), never fixed by the model. *)

From Stdlib Require Import ZArith Ascii String List Bool Lia.
From stdpp Require Import base option list strings gmap fin_maps sorting.

Local Open Scope Z_scope.

(** ** Data *)

(** A [Component::Ptr] that is not null: the object it points to, given by
    its address and the name its [GetName] method answers. *)
Record Component := mkComponent {
  component_addr : N;
  GetName : string
}.

Definition ConfigObject := N.
Definition Event := N.
Definition ThreadId := N.
Definition AppPtr := N.

Inductive LogSeverity := LogInformation | LogCritical.

Inductive Signal := SIGINT | SIGPIPE.
Inductive Disposition := SIG_DFL | SIG_IGN | Handler_SigIntHandler.

(** Calls that leave [Application], as they appear in application.cpp. *)
Inductive Effect :=
| Component_Start (c : Component)
| Component_Stop (c : Component)
| Component_SetConfig (c : Component) (cfg : ConfigObject)
| Logger_Write (severity : LogSeverity) (facility message : string)
| Object_ClearHeldObjects
| Timer_ProcessTimers (sleep : Z)
| Event_Wait (deadline : Z)
| Event_OnEventDelivered (ev : Event)
| sigaction (signum : Signal) (handler : Disposition)
| SetConsoleCtrlHandler (install : bool)
| lt_dlinit
| WSAStartup
| WSACleanup.

#[global] Instance Component_eq_dec : EqDecision Component.
Proof. solve_decision. Defined.
#[global] Instance LogSeverity_eq_dec : EqDecision LogSeverity.
Proof. solve_decision. Defined.
#[global] Instance Signal_eq_dec : EqDecision Signal.
Proof. solve_decision. Defined.
#[global] Instance Disposition_eq_dec : EqDecision Disposition.
Proof. solve_decision. Defined.
#[global] Instance Effect_eq_dec : EqDecision Effect.
Proof. solve_decision. Defined.

(** What a C++ call can end in. *)
Inductive Exception :=
| runtime_error (what_arg : string)
| PosixException (message : string) (errorCode : Z)
| Win32Exception (message : string) (errorCode : Z)
| other_std_exception (class_name what_arg : string)
| non_std_throw (description : string).

(** [catch (const std::exception&)] matches every class derived from
    [std::exception] and nothing else. *)
Definition is_std_exception (e : Exception) : bool :=
  match e with
  | non_std_throw _ => false
  | _ => true
  end.

(** The text handed to the exception's constructor. *)
Definition exception_message (e : Exception) : string :=
  match e with
  | runtime_error m => m
  | PosixException m _ => m
  | Win32Exception m _ => m
  | other_std_exception _ m => m
  | non_std_throw m => m
  end.

Inductive Outcome (A : Type) :=
| Returns (a : A)
| Throws (e : Exception)
| AssertionFailed
| UndefinedBehaviour.
Arguments Returns {A} a.
Arguments Throws {A} e.
Arguments AssertionFailed {A}.
Arguments UndefinedBehaviour {A}.

Inductive Platform := Posix | Win32.

(** ** The process state *)

Record Process := mkProcess {
  m_Instance : option AppPtr;
  m_ShuttingDown : bool;
  m_Debugging : bool;
  m_MainThreadID : option ThreadId;
  m_Components : gmap string Component;
  m_Arguments : list string;
  GetExePath_result : string;
  trace : list Effect
}.

(** Static initialisation: [m_Instance] null, both flags false, no main
    thread recorded, empty registry, empty cache. *)
Definition initial_process : Process :=
  mkProcess None false false None ∅ [] EmptyString [].

Definition set_Instance (v : option AppPtr) (p : Process) : Process :=
  mkProcess v (m_ShuttingDown p) (m_Debugging p) (m_MainThreadID p)
            (m_Components p) (m_Arguments p) (GetExePath_result p) (trace p).

Definition set_ShuttingDown (v : bool) (p : Process) : Process :=
  mkProcess (m_Instance p) v (m_Debugging p) (m_MainThreadID p)
            (m_Components p) (m_Arguments p) (GetExePath_result p) (trace p).

Definition set_Debugging (v : bool) (p : Process) : Process :=
  mkProcess (m_Instance p) (m_ShuttingDown p) v (m_MainThreadID p)
            (m_Components p) (m_Arguments p) (GetExePath_result p) (trace p).

Definition set_MainThreadID (v : option ThreadId) (p : Process) : Process :=
  mkProcess (m_Instance p) (m_ShuttingDown p) (m_Debugging p) v
            (m_Components p) (m_Arguments p) (GetExePath_result p) (trace p).

Definition set_Components (v : gmap string Component) (p : Process) : Process :=
  mkProcess (m_Instance p) (m_ShuttingDown p) (m_Debugging p) (m_MainThreadID p)
            v (m_Arguments p) (GetExePath_result p) (trace p).

Definition set_Arguments (v : list string) (p : Process) : Process :=
  mkProcess (m_Instance p) (m_ShuttingDown p) (m_Debugging p) (m_MainThreadID p)
            (m_Components p) v (GetExePath_result p) (trace p).

Definition set_GetExePath_result (v : string) (p : Process) : Process :=
  mkProcess (m_Instance p) (m_ShuttingDown p) (m_Debugging p) (m_MainThreadID p)
            (m_Components p) (m_Arguments p) v (trace p).

(** Record one outgoing call at the end of the trace. *)
Definition emit (e : Effect) (p : Process) : Process :=
  mkProcess (m_Instance p) (m_ShuttingDown p) (m_Debugging p) (m_MainThreadID p)
            (m_Components p) (m_Arguments p) (GetExePath_result p) (trace p ++ [e]).

(** ** The component registry *)

(** [Application::RegisterComponent]:
      m_Components[component->GetName()] = component;
      component->Start(); *)
Definition RegisterComponent (component : Component) (p : Process) : Process :=
  let p := set_Components (<[GetName component := component]> (m_Components p)) p in
  emit (Component_Start component) p.

(** [Application::UnregisterComponent]: log, erase the entry found under the
    component's name (if any), then [component->Stop()]. *)
Definition UnregisterComponent (component : Component) (p : Process) : Process :=
  let name := GetName component in
  let p := emit (Logger_Write LogInformation "base"
                   ("Unloading component '" +:+ name +:+ "'")) p in
  let p := match m_Components p !! name with
           | Some _ => set_Components (delete name (m_Components p)) p
           | None => p
           end in
  emit (Component_Stop component) p.

(** [Application::GetComponent]; [None] is the null pointer. *)
Definition GetComponent (name : string) (p : Process) : option Component :=
  match m_Components p !! name with
  | None => None
  | Some c => Some c
  end.

(** A run of [RegisterComponent] calls, first to last. *)
Definition RegisterAll (cs : list Component) (p : Process) : Process :=
  foldl (fun q c => RegisterComponent c q) p cs.

(** How often a call occurs in a trace. *)
Definition calls (e : Effect) (tr : list Effect) : nat :=
  length (filter (fun x => x = e) tr).

(** Modelled from the spec: the lifecycle state of a component (loaded →
    started → stopped), which lives in the [Component] class, outside
    application.cpp.  [Start] moves the component to started and [Stop] to
    stopped; a component nobody has called yet is loaded. *)
Inductive Lifecycle := Loaded | Started | Stopped.

(** Modelled from the spec: what one call does to the lifecycle state of
    component [c]. *)
Definition lifecycle_step (c : Component) (st : Lifecycle) (e : Effect) : Lifecycle :=
  match e with
  | Component_Start c' => if decide (c' = c) then Started else st
  | Component_Stop c' => if decide (c' = c) then Stopped else st
  | _ => st
  end.

(** Modelled from the spec: the lifecycle state of [c] after the calls of
    a trace. *)
Definition lifecycle (c : Component) (tr : list Effect) : Lifecycle :=
  foldl (lifecycle_step c) Loaded tr.

(** ** Shutdown flag and singleton *)

(** [Application::GetInstance]: the null pointer once the process is
    shutting down, [m_Instance] otherwise. *)
Definition GetInstance (p : Process) : option AppPtr :=
  if m_ShuttingDown p then None else m_Instance p.

(** [Application::Shutdown]: [m_ShuttingDown = true]. *)
Definition Shutdown (p : Process) : Process :=
  set_ShuttingDown true p.

Definition IsDebugging (p : Process) : bool := m_Debugging p.

(** [Application::IsMainThread], asked by thread [tid]. *)
Definition IsMainThread (tid : ThreadId) (p : Process) : bool :=
  bool_decide (m_MainThreadID p = Some tid).

(** The constructor.  [wsa_error] is what a failing [WSAStartup] reports
    (Windows), [debug_env] is [strtol] of the environment variable [_DEBUG]
    when it is set, [debugger_present] answers [IsDebuggerPresent]. *)
Definition Application_ctor (platform : Platform) (wsa_error : option Z)
    (debug_env : option Z) (debugger_present : bool) (p : Process)
  : Outcome unit * Process :=
  match platform, wsa_error with
  | Win32, Some code =>
      (Throws (Win32Exception "WSAStartup failed" code), emit WSAStartup p)
  | _, _ =>
      let p := emit (match platform with Win32 => WSAStartup | Posix => lt_dlinit end) p in
      let p := set_Debugging (match debug_env with
                              | Some v => negb (v =? 0)
                              | None => false
                              end) p in
      let p := match platform with
               | Win32 => if debugger_present then set_Debugging true p else p
               | Posix => p
               end in
      (Returns tt, p)
  end.

(** Iteration order of [std::map<string, Component::Ptr>]: ascending keys. *)
Definition components_in_order (m : gmap string Component) : list Component :=
  snd <$> merge_sort (fun a b => String.le (fst a) (fst b)) (map_to_list m).

(** The destructor: set the flag, stop every registered component, clear
    the registry. *)
Definition Application_dtor (platform : Platform) (p : Process) : Process :=
  let p := set_ShuttingDown true p in
  let p := foldl (fun q c => emit (Component_Stop c) q) p
                 (components_in_order (m_Components p)) in
  let p := set_Components ∅ p in
  match platform with
  | Win32 => emit WSACleanup p
  | Posix => p
  end.

(** [Application::SigIntHandler] (POSIX). *)
Definition SigIntHandler (signum : Signal) (p : Process) : Outcome unit * Process :=
  match signum with
  | SIGINT =>
      match GetInstance p with
      | None => (Returns tt, p)
      | Some _ =>
          let p := Shutdown p in
          (Returns tt, emit (sigaction SIGINT SIG_DFL) p)
      end
  | _ => (AssertionFailed, p)
  end.

(** [Application::CtrlHandler] (Windows); it answers [TRUE] on both paths. *)
Definition CtrlHandler (p : Process) : Outcome bool * Process :=
  match GetInstance p with
  | None => (Returns true, p)
  | Some _ =>
      match GetInstance p with
      | None => (UndefinedBehaviour, p)
      | Some _ =>
          let p := Shutdown p in
          (Returns true, emit (SetConsoleCtrlHandler false) p)
      end
  end.

(** ** Run *)

Definition EXIT_FAILURE : Z := 1.

(** The part of [Run] before the entry point is called: record the main
    thread, publish the singleton, install the signal handlers, copy the
    arguments. *)
Definition Run_prologue (platform : Platform) (self : AppPtr) (tid : ThreadId)
    (argv : list string) (p : Process) : Process :=
  let p := set_MainThreadID (Some tid) p in
  let p := set_Instance (Some self) p in
  let p := match platform with
           | Posix =>
               let p := emit (sigaction SIGINT Handler_SigIntHandler) p in
               emit (sigaction SIGPIPE SIG_IGN) p
           | Win32 => emit (SetConsoleCtrlHandler true) p
           end in
  set_Arguments argv p.

Section Run.
(** [Utility::GetTypeName] and [std::exception::what] of the classes
    declared outside application.cpp. *)
Variable GetTypeName : Exception → string.
Variable what : Exception → string.
(** The application's entry point, [virtual int Main(args)]. *)
Variable Main : list string → Process → Outcome Z * Process.

Definition Run (platform : Platform) (self : AppPtr) (tid : ThreadId)
    (argv : list string) (p : Process) : Outcome Z * Process :=
  match m_Instance p with
  | Some _ => (AssertionFailed, p)
  | None =>
      let p := Run_prologue platform self tid argv p in
      if IsDebugging p then
        match Main (m_Arguments p) p with
        | (Returns result, p) => (Returns result, set_Instance None p)
        | (o, p) => (o, p)
        end
      else
        match Main (m_Arguments p) p with
        | (Throws ex, p) =>
            if is_std_exception ex then
              let p := set_Instance None p in
              let p := emit (Logger_Write LogCritical "base" "---") p in
              let p := emit (Logger_Write LogCritical "base"
                               ("Exception: " +:+ GetTypeName ex)) p in
              let p := emit (Logger_Write LogCritical "base"
                               ("Message: " +:+ what ex)) p in
              (Returns EXIT_FAILURE, p)
            else (Throws ex, p)
        | (o, p) => (o, p)
        end
  end.
End Run.

(** ** Calls from any thread *)

(** The operations of application.cpp that write the statics and the
    registry, as they can be issued one after another by the threads of
    the process (the entry point and every callback act through them).
    [LoadComponent] writes through [RegisterComponent]; [GetExePath] writes
    nothing but its own cache. *)
Inductive Op :=
| OpConstruct (debug_env : option Z) (debugger_present : bool)
| OpRunPrologue (self : AppPtr) (tid : ThreadId) (argv : list string)
| OpInstanceReset
| OpShutdown
| OpInterrupt
| OpRegisterComponent (c : Component)
| OpUnregisterComponent (c : Component)
| OpDestruct.

Definition exec (platform : Platform) (o : Op) (p : Process) : Process :=
  match o with
  | OpConstruct debug_env debugger_present =>
      snd (Application_ctor platform None debug_env debugger_present p)
  | OpRunPrologue self tid argv => Run_prologue platform self tid argv p
  | OpInstanceReset => set_Instance None p
  | OpShutdown => Shutdown p
  | OpInterrupt =>
      match platform with
      | Posix => snd (SigIntHandler SIGINT p)
      | Win32 => snd (CtrlHandler p)
      end
  | OpRegisterComponent c => RegisterComponent c p
  | OpUnregisterComponent c => UnregisterComponent c p
  | OpDestruct => Application_dtor platform p
  end.

Definition run (platform : Platform) (ops : list Op) (p : Process) : Process :=
  foldl (fun q o => exec platform o q) p ops.

(** Number of steps of the run at which the flag goes from false to true. *)
Fixpoint transitions (platform : Platform) (ops : list Op) (p : Process) : nat :=
  match ops with
  | [] => 0
  | o :: ops' =>
      let p' := exec platform o p in
      ((if negb (m_ShuttingDown p) && m_ShuttingDown p' then 1 else 0)
       + transitions platform ops' p')%nat
  end.

(** ** Strings, as application.cpp uses them *)

(** [!s.empty()] is [negb (empty s)]. *)
Definition empty (s : string) : bool :=
  match s with
  | EmptyString => true
  | String _ _ => false
  end.

(** [s[0]]; the terminating NUL for the empty string. *)
Definition char0 (s : string) : ascii :=
  match s with
  | EmptyString => zero
  | String c _ => c
  end.

(** [s.find_first_of(c)]; [None] is [string::npos]. *)
Fixpoint find_first_of (c : ascii) (s : string) : option nat :=
  match s with
  | EmptyString => None
  | String d s' =>
      if Ascii.eqb d c then Some 0%nat
      else match find_first_of c s' with
           | Some i => Some (S i)
           | None => None
           end
  end.

(** [boost::algorithm::split] on one separator character, without token
    compression: [n] separators give [n + 1] tokens, empty ones included. *)
Fixpoint split (sep : ascii) (s : string) : list string :=
  match s with
  | EmptyString => [EmptyString]
  | String c s' =>
      if Ascii.eqb c sep then EmptyString :: split sep s'
      else match split sep s' with
           | tok :: toks => String c tok :: toks
           | [] => [String c EmptyString]
           end
  end.

(** Whether [needle] occurs in [haystack] as a contiguous substring. *)
Fixpoint contains (needle haystack : string) : bool :=
  String.prefix needle haystack ||
  match haystack with
  | EmptyString => false
  | String _ rest => contains needle rest
  end.

(** An absolute path of the platform: a leading slash on POSIX; a drive
    ([X:\]) or a UNC prefix on Windows. *)
Definition is_absolute (platform : Platform) (s : string) : bool :=
  match platform with
  | Posix =>
      match s with
      | String "/" _ => true
      | _ => false
      end
  | Win32 =>
      match s with
      | String "\" (String "\" _) => true
      | String _ (String ":" (String "\" _)) => true
      | _ => false
      end
  end.

(** ** The operating system *)

Definition Handle := N.

(** What calling the module's [CreateComponent] function returns: a raw
    [Component*], [None] when it is null. *)
Definition CreateComponentFunction := option Component.

(** Answers of the loader, the file system and the environment at the time
    of one call.  [None] stands for a NULL result. *)
Record System := mkSystem {
  lt_dlopen : string → option Handle;
  lt_dlerror : string;
  lt_dlsym : Handle → string → option CreateComponentFunction;
  LoadLibrary : string → option Handle;
  GetProcAddress : Handle → string → option CreateComponentFunction;
  GetLastError : Z;
  getcwd : option string;
  getenv : string → option string;
  access_X_OK : string → bool;
  realpath : string → option string;
  errno : Z;
  GetModuleFileName : string
}.

(** ** The dynamic loader *)

(** [Application::LoadComponent], called by thread [tid]. *)
Definition LoadComponent (platform : Platform) (os : System) (tid : ThreadId)
    (path : string) (componentConfig : ConfigObject) (p : Process)
  : Outcome Component * Process :=
  if negb (IsMainThread tid p) then (AssertionFailed, p)
  else
    let p := emit (Logger_Write LogInformation "base"
                     ("Loading component '" +:+ path +:+ "'")) p in
    let opened : Exception + Handle :=
      match platform with
      | Win32 =>
          match LoadLibrary os path with
          | None => inl (Win32Exception ("LoadLibrary('" +:+ path +:+ "') failed")
                                        (GetLastError os))
          | Some hModule => inr hModule
          end
      | Posix =>
          match lt_dlopen os path with
          | None => inl (runtime_error ("Could not load module '" +:+ path +:+ "': "
                                        +:+ lt_dlerror os))
          | Some hModule => inr hModule
          end
      end in
    match opened with
    | inl ex => (Throws ex, p)
    | inr hModule =>
        let pCreateComponent :=
          match platform with
          | Win32 => GetProcAddress os hModule "CreateComponent"
          | Posix => lt_dlsym os hModule "CreateComponent"
          end in
        match pCreateComponent with
        | None =>
            (Throws (runtime_error
                       "Loadable module does not contain CreateComponent function"), p)
        | Some None => (UndefinedBehaviour, p)
        | Some (Some component) =>
            let p := emit (Component_SetConfig component componentConfig) p in
            let p := RegisterComponent component p in
            (Returns component, p)
        end
    end.

(** ** The executable path *)

(** The [for] loop over the directories of [PATH]: the first directory
    where [dir + "/" + argv0] passes [access(.., X_OK)]. *)
Fixpoint search_paths (os : System) (paths : list string) (argv0 : string)
  : option string :=
  match paths with
  | [] => None
  | dir :: paths' =>
      let pathTest := dir +:+ "/" +:+ argv0 in
      if access_X_OK os pathTest then Some pathTest
      else search_paths os paths' argv0
  end.

(** [Application::GetExePath]. *)
Definition GetExePath (platform : Platform) (os : System) (p : Process)
  : Outcome string * Process :=
  if negb (empty (GetExePath_result p)) then (Returns (GetExePath_result p), p)
  else
    match platform with
    | Posix =>
        match m_Arguments p with
        | [] => (UndefinedBehaviour, p)
        | argv0 :: _ =>
            match getcwd os with
            | None => (Throws (PosixException "getcwd failed" (errno os)), p)
            | Some workingDirectory =>
                let executablePath :=
                  if negb (Ascii.eqb (char0 argv0) "/")
                  then workingDirectory +:+ "/" +:+ argv0
                  else argv0 in
                let found : option string :=
                  match find_first_of "/" argv0 with
                  | Some _ => Some executablePath
                  | None =>
                      match getenv os "PATH" with
                      | None => Some executablePath
                      | Some pathEnv => search_paths os (split ":" pathEnv) argv0
                      end
                  end in
                match found with
                | None =>
                    (Throws (runtime_error "Could not determine executable path."), p)
                | Some executablePath =>
                    match realpath os executablePath with
                    | None => (Throws (PosixException "realpath failed" (errno os)), p)
                    | Some buffer => (Returns buffer, set_GetExePath_result buffer p)
                    end
                end
            end
        end
    | Win32 =>
        let FullExePath := GetModuleFileName os in
        if (String.length FullExePath =? 0)%nat
        then (Throws (Win32Exception "GetModuleFileName() failed" (GetLastError os)), p)
        else (Returns FullExePath, set_GetExePath_result FullExePath p)
    end.

(** The contract of the operating system that [GetExePath] leans on:
    [realpath] and [GetModuleFileName] hand out absolute paths. *)
Definition system_conforms (platform : Platform) (os : System) : Prop :=
  match platform with
  | Posix => ∀ path buffer, realpath os path = Some buffer → is_absolute Posix buffer = true
  | Win32 => GetModuleFileName os = EmptyString ∨
             is_absolute Win32 (GetModuleFileName os) = true
  end.

(** The cache is empty or holds an absolute path. *)
Definition cache_ok (platform : Platform) (p : Process) : Prop :=
  GetExePath_result p = EmptyString ∨ is_absolute platform (GetExePath_result p) = true.

(** The two questions [LoadComponent] puts to the platform loader. *)
Definition open_library (platform : Platform) (os : System) (path : string)
  : option Handle :=
  match platform with
  | Win32 => LoadLibrary os path
  | Posix => lt_dlopen os path
  end.

Definition factory_symbol (platform : Platform) (os : System) (hModule : Handle)
  : option CreateComponentFunction :=
  match platform with
  | Win32 => GetProcAddress os hModule "CreateComponent"
  | Posix => lt_dlsym os hModule "CreateComponent"
  end.

(** The error [LoadComponent] throws when the library cannot be opened. *)
Definition open_error (platform : Platform) (os : System) (path : string) : Exception :=
  match platform with
  | Win32 => Win32Exception ("LoadLibrary('" +:+ path +:+ "') failed") (GetLastError os)
  | Posix => runtime_error ("Could not load module '" +:+ path +:+ "': " +:+ lt_dlerror os)
  end.

(** The error it throws when the module lacks the factory symbol. *)
Definition missing_factory_error : Exception :=
  runtime_error "Loadable module does not contain CreateComponent function".

(** The last step of the POSIX resolution: [realpath], then fill the cache. *)
Definition canonicalize (os : System) (p : Process) (executablePath : string)
  : Outcome string * Process :=
  match realpath os executablePath with
  | None => (Throws (PosixException "realpath failed" (errno os)), p)
  | Some buffer => (Returns buffer, set_GetExePath_result buffer p)
  end.

(** A path taken relative to a directory: itself when it is absolute. *)
Definition resolve_against (workingDirectory path : string) : string :=
  if is_absolute Posix path then path else workingDirectory +:+ "/" +:+ path.

(** The directories of [PATH]; none when the variable is unset. *)
Definition path_directories (os : System) : list string :=
  match getenv os "PATH" with
  | Some pathEnv => split ":" pathEnv
  | None => []
  end.

(** ** The event loop *)

(** The timer and event subsystems, held-object cleanup and the clock, as
    [RunEventLoop] meets them.  [World] is their state.  Each call may run
    callbacks, and other threads run meanwhile: what those do to the
    application they do through its operations, answered as a list of
    [Op].  Times are clock ticks; [boost::posix_time::seconds s] is
    [s * ticks_per_second] ticks. *)
Record Runtime (World : Type) := mkRuntime {
  ClearHeldObjects : World → list Op * World;
  ProcessTimers : World → Z * list Op * World;
  get_system_time : World → Z;
  ticks_per_second : Z;
  Wait : Z → World → list Event * list Op * World;
  OnEventDelivered : Event → World → list Op * World
}.
Arguments ClearHeldObjects {World} _ _.
Arguments ProcessTimers {World} _ _.
Arguments get_system_time {World} _ _.
Arguments ticks_per_second {World} _.
Arguments Wait {World} _ _ _.
Arguments OnEventDelivered {World} _ _ _.

(** How one pass through the loop body ends: at [break], or at its end. *)
Inductive Flow := Break | Continue.

Section EventLoop.
Context {World : Type}.
Variable platform : Platform.
Variable rt : Runtime World.

(** One round of the [for] loop: [ev->OnEventDelivered()]. *)
Definition deliver (s : Process * World) (ev : Event) : Process * World :=
  let p := emit (Event_OnEventDelivered ev) (fst s) in
  let '(ops, w) := OnEventDelivered rt ev (snd s) in
  (run platform ops p, w).

(** The body of the [while] loop. *)
Definition loop_body (p : Process) (w : World) : Flow * (Process * World) :=
  let p := emit Object_ClearHeldObjects p in
  let '(ops, w) := ClearHeldObjects rt w in
  let p := run platform ops p in
  let '(sleep, ops, w) := ProcessTimers rt w in
  let p := run platform ops (emit (Timer_ProcessTimers sleep) p) in
  if m_ShuttingDown p then (Break, (p, w))
  else
    let deadline := get_system_time rt w + sleep * ticks_per_second rt in
    let p := emit (Event_Wait deadline) p in
    let '(events, ops, w) := Wait rt deadline w in
    let p := run platform ops p in
    (Continue, foldl deliver (p, w) events).

(** [Application::RunEventLoop]; [fuel] bounds the number of passes, and
    [None] says the bound was reached with the loop still running. *)
Fixpoint RunEventLoop (fuel : nat) (p : Process) (w : World)
  : option (Process * World) :=
  if m_ShuttingDown p then Some (p, w)
  else
    match fuel with
    | O => None
    | S fuel' =>
        match loop_body p w with
        | (Break, (p, w)) => Some (p, w)
        | (Continue, (p, w)) => RunEventLoop fuel' p w
        end
    end.

(** The process after steps (1) and (2) of a pass, given what cleanup
    and the timers answered. *)
Definition after_timers (p : Process) (ops0 : list Op) (sleep : Z)
    (ops1 : list Op) : Process :=
  run platform ops1
      (emit (Timer_ProcessTimers sleep)
            (run platform ops0 (emit Object_ClearHeldObjects p))).
End EventLoop.

(** The calls [RunEventLoop] makes itself. *)
Definition is_loop_call (e : Effect) : bool :=
  match e with
  | Object_ClearHeldObjects | Timer_ProcessTimers _
  | Event_Wait _ | Event_OnEventDelivered _ => true
  | _ => false
  end.

(** The trace restricted to the calls of the loop. *)
Definition loop_view (tr : list Effect) : list Effect :=
  filter (fun e => is_loop_call e = true) tr.

(** What the loop may write to the trace from entry to exit: complete
    passes (cleanup, timers, wait, deliveries in order), closed by at most
    one pass that stops after the timers. *)
Inductive loop_trace : list Effect → Prop :=
| loop_trace_exit : loop_trace []
| loop_trace_break sleep :
    loop_trace [Object_ClearHeldObjects; Timer_ProcessTimers sleep]
| loop_trace_pass sleep deadline events rest :
    loop_trace rest →
    loop_trace ([Object_ClearHeldObjects; Timer_ProcessTimers sleep;
                 Event_Wait deadline]
                ++ (Event_OnEventDelivered <$> events) ++ rest).

(** ** Vocabulary of the further properties *)

(** Every binding of the registry is keyed by the name of its component. *)
Definition registry_wf (p : Process) : Prop :=
  ∀ name c, m_Components p !! name = Some c → GetName c = name.

(** Whether an operation is [RegisterComponent] on component [c]. *)
Definition is_register (c : Component) (o : Op) : bool :=
  match o with
  | OpRegisterComponent d => bool_decide (d = c)
  | _ => false
  end.

(** How many operations of a run register component [c]. *)
Definition registrations (c : Component) (ops : list Op) : nat :=
  length (List.filter (is_register c) ops).

(** The operations that call [Stop]: unregistration and the destructor. *)
Definition is_stopping (o : Op) : bool :=
  match o with
  | OpUnregisterComponent _ | OpDestruct => true
  | _ => false
  end.

Definition is_construct (o : Op) : bool :=
  match o with
  | OpConstruct _ _ => true
  | _ => false
  end.

(** The platform's last call of teardown. *)
Definition teardown_tail (platform : Platform) : list Effect :=
  match platform with
  | Win32 => [WSACleanup]
  | Posix => []
  end.

(** Tokens put together again, with the separator between neighbours. *)
Fixpoint join (sep : ascii) (toks : list string) : string :=
  match toks with
  | [] => EmptyString
  | tok :: toks' =>
      match toks' with
      | [] => tok
      | _ :: _ => tok +:+ String sep (join sep toks')
      end
  end.

(** The call with which the interrupt handler of the platform gives the
    interrupt back to its default treatment. *)
Definition interrupt_reset (platform : Platform) : Effect :=
  match platform with
  | Posix => sigaction SIGINT SIG_DFL
  | Win32 => SetConsoleCtrlHandler false
  end.

(** The debug mode the constructor decides on. *)
Definition debug_decision (platform : Platform) (debug_env : option Z)
    (debugger_present : bool) : bool :=
  match debug_env with
  | Some v => negb (v =? 0)
  | None => false
  end
  || match platform with
     | Win32 => debugger_present
     | Posix => false
     end.

(** The operations that write the registry. *)
Definition writes_registry (o : Op) : bool :=
  match o with
  | OpRegisterComponent _ | OpUnregisterComponent _ | OpDestruct => true
  | _ => false
  end.

(** ** Sample inputs *)

Definition compA : Component := mkComponent 1 "A".
Definition compB : Component := mkComponent 2 "B".
Definition compC : Component := mkComponent 3 "C".
Definition compA' : Component := mkComponent 7 "A".

Definition app1 : AppPtr := 1%N.
Definition app2 : AppPtr := 2%N.
Definition thread1 : ThreadId := 1%N.

Definition main_throws (e : Exception) (args : list string) (p : Process)
  : Outcome Z * Process := (Throws e, p).

Definition type_name_of (e : Exception) : string :=
  match e with
  | runtime_error _ => "std::runtime_error"
  | PosixException _ _ => "icinga::PosixException"
  | Win32Exception _ _ => "icinga::Win32Exception"
  | other_std_exception n _ => n
  | non_std_throw _ => ""
  end.

(** A system with no libraries, no working directory, no environment and
    an empty file system; the samples below override single answers. *)
Definition bare_system : System :=
  mkSystem (fun _ => None) "file not found" (fun _ _ => None)
           (fun _ => None) (fun _ _ => None) 126
           None (fun _ => None) (fun _ => false) (fun _ => None) 2
           EmptyString.

(** [libdemo.so] opens but exports no [CreateComponent]. *)
Definition system_without_factory : System :=
  mkSystem (fun path => if String.eqb path "libdemo.so" then Some 1%N else None)
           "file not found" (fun _ _ => None)
           (fun _ => None) (fun _ _ => None) 126
           None (fun _ => None) (fun _ => false) (fun _ => None) 2
           EmptyString.

(** A process whose main thread is [thread1]. *)
Definition running_process : Process :=
  Run_prologue Posix app1 thread1 ["icinga2"%string] initial_process.

(** Working directory [/opt/icinga2/bin], no [PATH] in the environment,
    nothing executable anywhere, every absolute path canonical. *)
Definition system_without_PATH : System :=
  mkSystem (fun _ => None) "file not found" (fun _ _ => None)
           (fun _ => None) (fun _ _ => None) 126
           (Some "/opt/icinga2/bin"%string) (fun _ => None) (fun _ => false)
           (fun path => if is_absolute Posix path then Some path else None) 2
           EmptyString.

(** The same with [PATH=/usr/local/bin:/usr/bin] and an executable
    [/usr/bin/icinga2]. *)
Definition system_with_PATH : System :=
  mkSystem (fun _ => None) "file not found" (fun _ _ => None)
           (fun _ => None) (fun _ _ => None) 126
           (Some "/opt/icinga2/bin"%string)
           (fun name => if String.eqb name "PATH"
                        then Some "/usr/local/bin:/usr/bin"%string else None)
           (fun path => String.eqb path "/usr/bin/icinga2")
           (fun path => if is_absolute Posix path then Some path else None) 2
           EmptyString.

(** The working directory and the file system after a later [chdir] and
    an unlink: every question now fails. *)
Definition system_later : System := bare_system.

(** A Windows system whose module file name is known. *)
Definition system_windows : System :=
  mkSystem (fun _ => None) "" (fun _ _ => None)
           (fun _ => None) (fun _ _ => None) 126
           None (fun _ => None) (fun _ => false) (fun _ => None) 0
           "C:\icinga2\icinga2.exe".

(** A runtime whose state counts the timer rounds: each round asks for a
    sleep of 5 seconds, the second round's timer calls [Shutdown]; each
    wait delivers the events 1 and 2; the clock shows 1000 ticks per
    round, one tick a second. *)
Definition sample_runtime : Runtime nat :=
  mkRuntime nat
    (fun w => ([], w))
    (fun w => (5, if (w =? 1)%nat then [OpShutdown] else [], S w))
    (fun w => 1000 * Z.of_nat w)
    1
    (fun _ w => ([1%N; 2%N], [], w))
    (fun _ w => ([], w)).

(** The process after the first pass of the loop over [sample_runtime]. *)
Definition after_first_pass : Process :=
  fst (snd (loop_body Posix sample_runtime running_process 0%nat)).

(** An entry point that returns its argument count. *)
Definition main_counts (args : list string) (p : Process) : Outcome Z * Process :=
  (Returns (Z.of_nat (length args)), p).

(** [libdemo.so] opens and its factory makes [compA]. *)
Definition system_with_factory : System :=
  mkSystem (fun path => if String.eqb path "libdemo.so" then Some 1%N else None)
           "file not found"
           (fun _ symbol => if String.eqb symbol "CreateComponent"
                            then Some (Some compA) else None)
           (fun _ => None) (fun _ _ => None) 126
           None (fun _ => None) (fun _ => false) (fun _ => None) 2
           EmptyString.

Definition thread2 : ThreadId := 2%N.


(** * Properties *)

(** ** Bookkeeping lemmas on traces *)

Lemma calls_app (e : Effect) (t1 t2 : list Effect) :
  calls e (t1 ++ t2) = (calls e t1 + calls e t2)%nat.
Proof. unfold calls. by rewrite filter_app, length_app. Qed.

Lemma calls_nil (e : Effect) : calls e [] = 0%nat.
Proof. reflexivity. Qed.

Lemma calls_one (e x : Effect) :
  calls e [x] = if decide (x = e) then 1%nat else 0%nat.
Proof.
  unfold calls. rewrite filter_cons, filter_nil.
  by destruct (decide (x = e)).
Qed.

Lemma lifecycle_app (c : Component) (t1 t2 : list Effect) :
  lifecycle c (t1 ++ t2) = foldl (lifecycle_step c) (lifecycle c t1) t2.
Proof. unfold lifecycle. apply foldl_app. Qed.

(** ** The component registry *)

Lemma RegisterComponent_trace (c : Component) (p : Process) :
  trace (RegisterComponent c p) = trace p ++ [Component_Start c].
Proof. reflexivity. Qed.

Lemma RegisterComponent_components (c : Component) (p : Process) :
  m_Components (RegisterComponent c p) = <[GetName c := c]> (m_Components p).
Proof. reflexivity. Qed.

Lemma GetComponent_lookup (name : string) (p : Process) :
  GetComponent name p = m_Components p !! name.
Proof. unfold GetComponent. by destruct (m_Components p !! name). Qed.

Lemma RegisterAll_snoc (cs : list Component) (c : Component) (p : Process) :
  RegisterAll (cs ++ [c]) p = RegisterComponent c (RegisterAll cs p).
Proof. unfold RegisterAll. by rewrite foldl_app. Qed.

Lemma RegisterAll_app (cs1 cs2 : list Component) (p : Process) :
  RegisterAll (cs1 ++ cs2) p = RegisterAll cs2 (RegisterAll cs1 p).
Proof. unfold RegisterAll. by rewrite foldl_app. Qed.

Lemma RegisterAll_trace (cs : list Component) (p : Process) :
  trace (RegisterAll cs p) = trace p ++ (Component_Start <$> cs).
Proof.
  revert p. induction cs as [|c cs IH]; intros p.
  - simpl. by rewrite app_nil_r.
  - change (RegisterAll (c :: cs) p) with (RegisterAll cs (RegisterComponent c p)).
    rewrite IH, RegisterComponent_trace, <- app_assoc. reflexivity.
Qed.

(** After a run of registrations, a name the run mentions is bound to the
    last component of the run that bears it; any other name keeps its old
    binding. *)
Lemma RegisterAll_lookup (cs : list Component) (p : Process) (name : string) :
  GetComponent name (RegisterAll cs p) =
  match last (filter (fun c => GetName c = name) cs) with
  | Some c => Some c
  | None => GetComponent name p
  end.
Proof.
  induction cs as [|c cs IH] using rev_ind.
  - reflexivity.
  - rewrite RegisterAll_snoc, GetComponent_lookup, RegisterComponent_components.
    rewrite filter_app, filter_cons, filter_nil.
    destruct (decide (GetName c = name)) as [->|Hne].
    + by rewrite lookup_insert_eq, last_snoc.
    + rewrite lookup_insert_ne by done. rewrite app_nil_r.
      by rewrite <- GetComponent_lookup.
Qed.

Lemma calls_Start_not_in (c : Component) (cs : list Component) :
  c ∉ cs → calls (Component_Start c) (Component_Start <$> cs) = 0%nat.
Proof.
  induction cs as [|d cs IH]; intros Hc; [done|].
  apply not_elem_of_cons in Hc as [Hne Hc].
  change (Component_Start <$> d :: cs) with ([Component_Start d] ++ (Component_Start <$> cs)).
  rewrite calls_app, calls_one, IH by done.
  destruct (decide (Component_Start d = Component_Start c)); [congruence|done].
Qed.

Lemma calls_Start_NoDup (c : Component) (cs : list Component) :
  NoDup cs → c ∈ cs → calls (Component_Start c) (Component_Start <$> cs) = 1%nat.
Proof.
  induction 1 as [|d cs Hd Hnd IH]; intros Hc; [by apply not_elem_of_nil in Hc|].
  change (Component_Start <$> d :: cs) with ([Component_Start d] ++ (Component_Start <$> cs)).
  rewrite calls_app, calls_one.
  apply elem_of_cons in Hc as [->|Hc].
  - rewrite decide_True by done. by rewrite calls_Start_not_in.
  - rewrite decide_False; [by rewrite IH|].
    intros [= ->]. done.
Qed.

Lemma NoDup_names (cs : list Component) :
  NoDup (GetName <$> cs) → NoDup cs.
Proof. apply NoDup_fmap_1. Qed.

Lemma last_filter_unique (cs : list Component) (c : Component) :
  NoDup (GetName <$> cs) → c ∈ cs →
  last (filter (fun d => GetName d = GetName c) cs) = Some c.
Proof.
  induction cs as [|d cs IH]; intros Hnd Hc; [by apply not_elem_of_nil in Hc|].
  rewrite fmap_cons in Hnd. apply NoDup_cons in Hnd as [Hd Hnd].
  rewrite filter_cons.
  apply elem_of_cons in Hc as [->|Hc].
  - rewrite decide_True by done.
    assert (filter (fun d0 => GetName d0 = GetName d) cs = []) as ->; [|done].
    clear IH Hnd. induction cs as [|x cs IH]; [done|].
    rewrite fmap_cons in Hd. apply not_elem_of_cons in Hd as [Hx Hd].
    rewrite filter_cons, decide_False by done. by apply IH.
  - rewrite decide_False.
    + by apply IH.
    + intros Heq. apply Hd. rewrite Heq. by apply list_elem_of_fmap_2.
Qed.

Lemma UnregisterComponent_components (c : Component) (p : Process) :
  m_Components (UnregisterComponent c p) = delete (GetName c) (m_Components p).
Proof.
  unfold UnregisterComponent. simpl.
  destruct (m_Components p !! GetName c) eqn:E; simpl; [done|].
  symmetry. by apply delete_id.
Qed.

Lemma UnregisterComponent_trace (c : Component) (p : Process) :
  trace (UnregisterComponent c p) =
  trace p ++ [Logger_Write LogInformation "base"
                ("Unloading component '" +:+ GetName c +:+ "'");
              Component_Stop c].
Proof.
  unfold UnregisterComponent. simpl.
  destruct (m_Components p !! GetName c); simpl; by rewrite <- app_assoc.
Qed.

Lemma UnregisterComponent_unbinds (c : Component) (p : Process) :
  GetComponent (GetName c) (UnregisterComponent c p) = None.
Proof.
  rewrite GetComponent_lookup, UnregisterComponent_components.
  apply lookup_delete_eq.
Qed.

Lemma UnregisterComponent_calls_Stop (c d : Component) (p : Process) :
  calls (Component_Stop d) (trace (UnregisterComponent c p))
  = ((if decide (c = d) then 1 else 0) + calls (Component_Stop d) (trace p))%nat.
Proof.
  rewrite UnregisterComponent_trace, calls_app.
  change [Logger_Write LogInformation "base"
            ("Unloading component '" +:+ GetName c +:+ "'"); Component_Stop c]
    with ([Logger_Write LogInformation "base"
            ("Unloading component '" +:+ GetName c +:+ "'")] ++ [Component_Stop c]).
  rewrite calls_app, !calls_one.
  rewrite decide_False by discriminate.
  destruct (decide (c = d)) as [->|Hne].
  - rewrite decide_True by done. lia.
  - rewrite decide_False; [lia|]. by intros [= ->].
Qed.

(** C5.  After any run of [RegisterComponent] calls on components with
    pairwise distinct names, [GetComponent] on the name of each of them
    answers that component (the last, and only, one registered under the
    name), and [Start] has been called on it exactly once more than before
    the run, both when its own registration returns and at the end. *)
Theorem register_distinct_names (cs : list Component) (p : Process) :
  NoDup (GetName <$> cs) →
  (∀ c, c ∈ cs →
     GetComponent (GetName c) (RegisterAll cs p) = Some c ∧
     last (filter (fun d => GetName d = GetName c) cs) = Some c) ∧
  (∀ pre c post, cs = pre ++ c :: post →
     calls (Component_Start c) (trace (RegisterAll (pre ++ [c]) p))
       = S (calls (Component_Start c) (trace p)) ∧
     calls (Component_Start c) (trace (RegisterAll cs p))
       = S (calls (Component_Start c) (trace p))).
Proof.
  intros Hnd. split.
  - intros c Hc. rewrite RegisterAll_lookup.
    by rewrite (last_filter_unique cs c Hnd Hc).
  - intros pre c post ->.
    pose proof (NoDup_names _ Hnd) as Hcs.
    assert (NoDup (pre ++ [c])) as Hpre.
    { replace (pre ++ c :: post) with ((pre ++ [c]) ++ post) in Hcs
        by (by rewrite <- app_assoc).
      by apply NoDup_app in Hcs as [? _]. }
    rewrite !RegisterAll_trace, !calls_app.
    rewrite !calls_Start_NoDup; try done; try lia.
    + apply elem_of_app. right. by left.
    + apply elem_of_app. right. by left.
Qed.

Lemma register_distinct_names_witness :
  GetComponent "B" (RegisterAll [compA; compB; compC] initial_process) = Some compB ∧
  calls (Component_Start compB)
        (trace (RegisterAll ([compA] ++ [compB]) initial_process)) = 1%nat.
Proof.
  assert (NoDup (GetName <$> [compA; compB; compC])) as Hnd.
  { compute_done. }
  destruct (register_distinct_names [compA; compB; compC] initial_process Hnd)
    as [Hget Hstart].
  split.
  - apply (Hget compB). compute_done.
  - apply (Hstart [compA] compB [compC]). reflexivity.
Defined.

(** C6.  Registering a second component under a name that is already bound
    to another component rebinds the name to the new one; the call's only
    outgoing call is [Start] on the new component, so no [Stop] reaches any
    component and the lifecycle state of the replaced one is what it was. *)
Theorem reregister_replaces_silently (c1 c2 : Component) (p : Process) :
  GetComponent (GetName c2) p = Some c1 →
  c1 ≠ c2 →
  GetComponent (GetName c2) (RegisterComponent c2 p) = Some c2 ∧
  trace (RegisterComponent c2 p) = trace p ++ [Component_Start c2] ∧
  (∀ c, calls (Component_Stop c) (trace (RegisterComponent c2 p))
        = calls (Component_Stop c) (trace p)) ∧
  lifecycle c1 (trace (RegisterComponent c2 p)) = lifecycle c1 (trace p).
Proof.
  intros _ Hne. repeat split.
  - rewrite GetComponent_lookup, RegisterComponent_components.
    apply lookup_insert_eq.
  - intros c. rewrite RegisterComponent_trace, calls_app, calls_one.
    rewrite decide_False by discriminate. lia.
  - rewrite RegisterComponent_trace, lifecycle_app. simpl.
    rewrite decide_False; [done|]. by intros ->.
Qed.

Lemma reregister_replaces_silently_witness :
  GetComponent "A" (RegisterComponent compA' (RegisterComponent compA initial_process))
    = Some compA' ∧
  calls (Component_Stop compA)
        (trace (RegisterComponent compA' (RegisterComponent compA initial_process)))
    = 0%nat ∧
  lifecycle compA
        (trace (RegisterComponent compA' (RegisterComponent compA initial_process)))
    = Started.
Proof.
  destruct (reregister_replaces_silently compA compA'
              (RegisterComponent compA initial_process))
    as (Hget & _ & Hstop & Hlife).
  - vm_compute. reflexivity.
  - discriminate.
  - split; [exact Hget|]. split.
    + rewrite Hstop. reflexivity.
    + rewrite Hlife. reflexivity.
Defined.

(** The end-to-end scenario of the specification: register C, A and B,
    unregister B, destroy the application.  B is gone, A and C are still
    found before the teardown, and the teardown stops A and then C, once
    each. *)
Example teardown_stops_in_key_order :
  let p := UnregisterComponent compB (RegisterAll [compC; compA; compB] initial_process) in
  GetComponent "B" p = None ∧
  GetComponent "A" p = Some compA ∧
  GetComponent "C" p = Some compC ∧
  trace (Application_dtor Posix p)
  = trace p ++ [Component_Stop compA; Component_Stop compC] ∧
  m_Components (Application_dtor Posix p) = ∅.
Proof. repeat split; vm_compute; reflexivity. Qed.

(** C7.  [UnregisterComponent] erases the binding of the component's name
    when there is one and leaves the registry as it was when there is none;
    on either path it calls [Stop] on the component it was given exactly
    once, which leaves that component stopped. *)
Theorem unregister_always_stops (c : Component) (p : Process) :
  m_Components (UnregisterComponent c p) = delete (GetName c) (m_Components p) ∧
  GetComponent (GetName c) (UnregisterComponent c p) = None ∧
  (GetComponent (GetName c) p = None →
     m_Components (UnregisterComponent c p) = m_Components p) ∧
  calls (Component_Stop c) (trace (UnregisterComponent c p))
    = S (calls (Component_Stop c) (trace p)) ∧
  lifecycle c (trace (UnregisterComponent c p)) = Stopped.
Proof.
  repeat split.
  - apply UnregisterComponent_components.
  - apply UnregisterComponent_unbinds.
  - rewrite GetComponent_lookup. intros Hmiss.
    rewrite UnregisterComponent_components. by apply delete_id.
  - rewrite UnregisterComponent_calls_Stop, decide_True by done. lia.
  - rewrite UnregisterComponent_trace, lifecycle_app. simpl.
    by rewrite decide_True.
Qed.

Lemma unregister_always_stops_witness :
  m_Components (UnregisterComponent compB (RegisterComponent compA initial_process))
    = m_Components (RegisterComponent compA initial_process) ∧
  calls (Component_Stop compB)
        (trace (UnregisterComponent compB (RegisterComponent compA initial_process)))
    = 1%nat.
Proof.
  destruct (unregister_always_stops compB (RegisterComponent compA initial_process))
    as (_ & _ & Hmiss & Hstop & _).
  split.
  - apply Hmiss. vm_compute. reflexivity.
  - rewrite Hstop. reflexivity.
Defined.

(** C10.  [UnregisterComponent] erases by name.  Whatever component [d] is
    bound to the name of the argument [c] loses its binding, also when [d]
    is another object than [c]; [Stop] goes to [c], never to [d].  So after
    [RegisterComponent a], [RegisterComponent b] under one name, the call
    [UnregisterComponent a] unbinds the name (which was bound to [b]), stops
    [a] once and does not stop [b]. *)
Theorem unregister_erases_by_name (a b : Component) (p : Process) :
  GetName a = GetName b →
  a ≠ b →
  (∀ c d q, GetComponent (GetName c) q = Some d → d ≠ c →
     GetComponent (GetName c) (UnregisterComponent c q) = None ∧
     calls (Component_Stop d) (trace (UnregisterComponent c q))
       = calls (Component_Stop d) (trace q)) ∧
  GetComponent (GetName a) (RegisterComponent b (RegisterComponent a p)) = Some b ∧
  GetComponent (GetName a)
     (UnregisterComponent a (RegisterComponent b (RegisterComponent a p))) = None ∧
  calls (Component_Stop a)
     (trace (UnregisterComponent a (RegisterComponent b (RegisterComponent a p))))
    = S (calls (Component_Stop a) (trace p)) ∧
  calls (Component_Stop b)
     (trace (UnregisterComponent a (RegisterComponent b (RegisterComponent a p))))
    = calls (Component_Stop b) (trace p).
Proof.
  intros Hname Hne.
  assert (∀ c q, calls (Component_Stop c) (trace (RegisterComponent b (RegisterComponent a q)))
                 = calls (Component_Stop c) (trace q)) as Hreg.
  { intros c q. rewrite !RegisterComponent_trace, !calls_app, !calls_one.
    rewrite !decide_False by discriminate. lia. }
  split; [|split; [|split; [|split]]].
  - intros c d q _ Hdc. split; [apply UnregisterComponent_unbinds|].
    rewrite UnregisterComponent_calls_Stop, decide_False by done. lia.
  - rewrite GetComponent_lookup, RegisterComponent_components, Hname.
    apply lookup_insert_eq.
  - apply UnregisterComponent_unbinds.
  - rewrite UnregisterComponent_calls_Stop, decide_True by done.
    rewrite Hreg. lia.
  - rewrite UnregisterComponent_calls_Stop, decide_False by done.
    rewrite Hreg. lia.
Qed.

Lemma unregister_erases_by_name_witness :
  GetComponent "A" (RegisterComponent compA' (RegisterComponent compA initial_process))
    = Some compA' ∧
  GetComponent "A"
    (UnregisterComponent compA
       (RegisterComponent compA' (RegisterComponent compA initial_process))) = None ∧
  calls (Component_Stop compA')
    (trace (UnregisterComponent compA
       (RegisterComponent compA' (RegisterComponent compA initial_process)))) = 0%nat.
Proof.
  destruct (unregister_erases_by_name compA compA' initial_process)
    as (_ & Hget & Hgone & _ & Hb).
  - reflexivity.
  - discriminate.
  - split; [exact Hget|]. split; [exact Hgone|]. rewrite Hb. reflexivity.
Defined.

(** ** The shutdown flag *)

Lemma emit_all_ShuttingDown (es : list Component) (p : Process) :
  m_ShuttingDown (foldl (fun q c => emit (Component_Stop c) q) p es)
  = m_ShuttingDown p.
Proof.
  revert p. induction es as [|c es IH]; intros p; [done|].
  simpl. by rewrite IH.
Qed.

Lemma UnregisterComponent_ShuttingDown (c : Component) (p : Process) :
  m_ShuttingDown (UnregisterComponent c p) = m_ShuttingDown p.
Proof.
  unfold UnregisterComponent. simpl.
  by destruct (m_Components p !! GetName c).
Qed.

(** No operation clears the flag. *)
Lemma exec_monotone (platform : Platform) (o : Op) (p : Process) :
  m_ShuttingDown p = true → m_ShuttingDown (exec platform o p) = true.
Proof.
  intros Hp. destruct o; cbn [exec].
  - destruct platform; simpl; [done|]. by destruct debugger_present.
  - by destruct platform.
  - done.
  - done.
  - unfold SigIntHandler, CtrlHandler, GetInstance. rewrite Hp.
    by destruct platform.
  - done.
  - by rewrite UnregisterComponent_ShuttingDown.
  - unfold Application_dtor. destruct platform; simpl;
      by rewrite ?emit_all_ShuttingDown.
Qed.

Lemma run_monotone (platform : Platform) (ops : list Op) (p : Process) :
  m_ShuttingDown p = true → m_ShuttingDown (run platform ops p) = true.
Proof.
  revert p. induction ops as [|o ops IH]; intros p Hp; [done|].
  simpl. apply IH. by apply exec_monotone.
Qed.

Lemma transitions_after_shutdown (platform : Platform) (ops : list Op) (p : Process) :
  m_ShuttingDown p = true → transitions platform ops p = 0%nat.
Proof.
  revert p. induction ops as [|o ops IH]; intros p Hp; [done|].
  simpl. rewrite Hp. simpl. apply IH. by apply exec_monotone.
Qed.

Lemma transitions_at_most_once (platform : Platform) (ops : list Op) (p : Process) :
  (transitions platform ops p ≤ 1)%nat.
Proof.
  revert p. induction ops as [|o ops IH]; intros p; simpl; [lia|].
  destruct (m_ShuttingDown p) eqn:Hp; simpl.
  - rewrite transitions_after_shutdown; [lia|]. by apply exec_monotone.
  - destruct (m_ShuttingDown (exec platform o p)) eqn:Hp'.
    + rewrite transitions_after_shutdown by done. lia.
    + apply IH.
Qed.

Lemma transitions_exactly_once (platform : Platform) (ops : list Op) (p : Process) :
  m_ShuttingDown p = false → OpShutdown ∈ ops →
  transitions platform ops p = 1%nat.
Proof.
  revert p. induction ops as [|o ops IH]; intros p Hp Hin.
  - by apply not_elem_of_nil in Hin.
  - simpl. rewrite Hp. simpl.
    destruct (m_ShuttingDown (exec platform o p)) eqn:Hp'.
    + by rewrite transitions_after_shutdown.
    + apply elem_of_cons in Hin as [<-|Hin]; [done|]. by apply IH.
Qed.

(** C1.  [Shutdown] is idempotent and a no-op once the flag is set; along
    any sequence of operations issued by any threads the flag goes from
    false to true at most once (exactly once when the flag starts false
    and [Shutdown] is among them) and, once true, stays true, so that
    [GetInstance] answers the null pointer in every later state. *)
Theorem shutdown_monotonic_idempotent (platform : Platform) :
  (∀ p, Shutdown (Shutdown p) = Shutdown p) ∧
  (∀ p, m_ShuttingDown (Shutdown p) = true) ∧
  (∀ p, m_ShuttingDown p = true → Shutdown p = p) ∧
  (∀ ops p, (transitions platform ops p ≤ 1)%nat) ∧
  (∀ ops p, m_ShuttingDown p = false → OpShutdown ∈ ops →
     transitions platform ops p = 1%nat) ∧
  (∀ ops p, m_ShuttingDown p = true →
     m_ShuttingDown (run platform ops p) = true ∧
     GetInstance (run platform ops p) = None).
Proof.
  split; [done|]. split; [done|]. split.
  { intros [] Hp. simpl in Hp. subst. reflexivity. }
  split; [apply transitions_at_most_once|].
  split; [apply transitions_exactly_once|].
  intros ops p Hp. pose proof (run_monotone platform ops p Hp) as Hrun.
  split; [done|]. unfold GetInstance. by rewrite Hrun.
Qed.

Lemma shutdown_monotonic_idempotent_witness :
  transitions Posix [OpRunPrologue app1 thread1 []; OpShutdown; OpInterrupt; OpShutdown]
              initial_process = 1%nat ∧
  GetInstance (run Posix [OpRunPrologue app2 thread1 []; OpInstanceReset]
                 (Shutdown (Run_prologue Posix app1 thread1 [] initial_process))) = None.
Proof.
  destruct (shutdown_monotonic_idempotent Posix) as (_ & _ & _ & _ & Hone & Hmono).
  split.
  - apply Hone; [reflexivity|]. apply list_elem_of_In. simpl. auto.
  - apply Hmono. reflexivity.
Defined.

(** ** The fault boundary of Run *)

(** The claim as the specification words it fails in debug mode: the entry
    point throws, the fault leaves [Run], and [m_Instance] still refers to
    the application.  It also fails without debug mode for a thrown value
    that is no [std::exception]: nothing catches it. *)
Lemma Run_fault_counterexample :
  (let r := Run type_name_of exception_message (main_throws (runtime_error "boom"))
                Posix app1 thread1 ["icinga2"%string] (set_Debugging true initial_process) in
   fst r = Throws (runtime_error "boom") ∧ m_Instance (snd r) = Some app1
   ∧ m_Instance (snd r) ≠ None) ∧
  (let r := Run type_name_of exception_message (main_throws (non_std_throw "42"))
                Posix app1 thread1 ["icinga2"%string] initial_process in
   fst r = Throws (non_std_throw "42") ∧ m_Instance (snd r) = Some app1).
Proof. split; [split; [|split]|split]; done. Qed.

Section RunFacts.
Variable GetTypeName : Exception → string.
Variable what : Exception → string.
Variable Main : list string → Process → Outcome Z * Process.

Lemma Run_prologue_IsDebugging platform self tid argv p :
  IsDebugging (Run_prologue platform self tid argv p) = IsDebugging p.
Proof. by destruct platform. Qed.

Lemma Run_prologue_Arguments platform self tid argv p :
  m_Arguments (Run_prologue platform self tid argv p) = argv.
Proof. by destruct platform. Qed.

(** C3 (amended).  Let [Run] be called with no singleton set and let the
    entry point throw [e], leaving the process in state [p'].  Without
    debug mode and for [e] a [std::exception], [Run] releases the
    singleton, logs "---", the type name and the message at critical
    severity and returns [EXIT_FAILURE], which is not zero.  In debug
    mode [e] leaves [Run] and the process is exactly as the entry point
    left it: [Run] does not release the singleton on that path.  A
    thrown value that is no [std::exception] leaves [Run] the same way
    in both modes. *)
Theorem Run_fault_boundary platform self tid argv p e p' :
  m_Instance p = None →
  Main argv (Run_prologue platform self tid argv p) = (Throws e, p') →
  (IsDebugging p = false → is_std_exception e = true →
     ∃ q, Run GetTypeName what Main platform self tid argv p
            = (Returns EXIT_FAILURE, q) ∧
          EXIT_FAILURE ≠ 0 ∧
          m_Instance q = None ∧
          trace q = trace p' ++
            [Logger_Write LogCritical "base" "---";
             Logger_Write LogCritical "base" ("Exception: " +:+ GetTypeName e);
             Logger_Write LogCritical "base" ("Message: " +:+ what e)]) ∧
  (IsDebugging p = true →
     Run GetTypeName what Main platform self tid argv p = (Throws e, p')) ∧
  (is_std_exception e = false →
     Run GetTypeName what Main platform self tid argv p = (Throws e, p')).
Proof.
  intros Hinst Hmain. unfold Run. rewrite Hinst.
  rewrite Run_prologue_IsDebugging, Run_prologue_Arguments, Hmain.
  split; [|split].
  - intros -> ->. eexists. split; [reflexivity|].
    split; [done|]. split; [done|]. simpl. by rewrite <- !app_assoc.
  - by intros ->.
  - intros ->. by destruct (IsDebugging p).
Qed.
End RunFacts.

Lemma Run_fault_boundary_witness :
  (∃ q, Run type_name_of exception_message (main_throws (runtime_error "boom"))
            Posix app1 thread1 ["icinga2"%string] initial_process = (Returns EXIT_FAILURE, q) ∧
        m_Instance q = None) ∧
  Run type_name_of exception_message (main_throws (runtime_error "boom"))
      Posix app1 thread1 ["icinga2"%string] (set_Debugging true initial_process)
  = (Throws (runtime_error "boom"),
     Run_prologue Posix app1 thread1 ["icinga2"%string] (set_Debugging true initial_process)).
Proof.
  split.
  - destruct (Run_fault_boundary type_name_of exception_message
                (main_throws (runtime_error "boom")) Posix app1 thread1 ["icinga2"%string]
                initial_process (runtime_error "boom")
                (Run_prologue Posix app1 thread1 ["icinga2"%string] initial_process)
                eq_refl eq_refl) as (Hcatch & _ & _).
    destruct (Hcatch eq_refl eq_refl) as (q & Hrun & _ & Hinst & _).
    exists q. by split.
  - destruct (Run_fault_boundary type_name_of exception_message
                (main_throws (runtime_error "boom")) Posix app1 thread1 ["icinga2"%string]
                (set_Debugging true initial_process) (runtime_error "boom")
                (Run_prologue Posix app1 thread1 ["icinga2"%string]
                   (set_Debugging true initial_process))
                eq_refl eq_refl) as (_ & Hdebug & _).
    apply Hdebug. reflexivity.
Defined.

(** ** Substrings *)

Lemma prefix_app (n b : string) : String.prefix n (n +:+ b) = true.
Proof. induction n as [|c n IH]; simpl; [by destruct b|]. destruct (ascii_dec c c); done. Qed.

Lemma prefix_inv (n h : string) :
  String.prefix n h = true → ∃ b, h = n +:+ b.
Proof.
  revert h. induction n as [|c n IH]; intros h Hp.
  - by exists h.
  - destruct h as [|d h]; simpl in Hp; [done|].
    destruct (ascii_dec c d) as [->|]; [|done].
    destruct (IH h Hp) as [b ->]. by exists b.
Qed.

Lemma contains_prefix (n h : string) :
  String.prefix n h = true → contains n h = true.
Proof. intros H. destruct h; cbn [contains]; by rewrite H. Qed.

Lemma contains_app (a n b : string) : contains n (a +:+ n +:+ b) = true.
Proof.
  induction a as [|c a IH].
  - change (contains n (n +:+ b) = true). apply contains_prefix, prefix_app.
  - change (String c a +:+ n +:+ b) with (String c (a +:+ n +:+ b)).
    cbn [contains]. rewrite IH. apply orb_true_r.
Qed.

(** [contains] is substring occurrence. *)
Lemma contains_spec (n h : string) :
  contains n h = true ↔ ∃ a b, h = a +:+ n +:+ b.
Proof.
  split.
  - induction h as [|c h IH]; cbn [contains]; intros H.
    + rewrite orb_false_r in H. destruct (prefix_inv _ _ H) as [b Hb].
      by exists EmptyString, b.
    + apply orb_true_iff in H as [H|H].
      * destruct (prefix_inv _ _ H) as [b Hb]. by exists EmptyString, b.
      * destruct (IH H) as (a & b & ->). by exists (String c a), b.
  - intros (a & b & ->). apply contains_app.
Qed.

(** ** The dynamic loader *)

(** The claim as the specification words it fails for a module without the
    factory symbol: the error text is a constant and does not mention the
    path that was tried. *)
Lemma LoadComponent_missing_factory_counterexample :
  open_library Posix system_without_factory "libdemo.so" = Some 1%N ∧
  factory_symbol Posix system_without_factory 1%N = None ∧
  ∃ e, fst (LoadComponent Posix system_without_factory thread1 "libdemo.so" 0%N
              running_process) = Throws e ∧
       contains "libdemo.so" (exception_message e) = false.
Proof.
  split; [reflexivity|]. split; [reflexivity|].
  eexists. split; reflexivity.
Qed.

(** C4 (amended).  On the main thread: when the library cannot be opened,
    [LoadComponent] throws the platform's open error, whose message
    contains the path that was tried; when it opens but lacks the factory
    symbol, [LoadComponent] throws a [runtime_error] with the constant text
    "Loadable module does not contain CreateComponent function", an error
    different from the open error of every path.  Neither failure touches
    the registry. *)
Theorem LoadComponent_errors platform os tid path componentConfig p :
  IsMainThread tid p = true →
  (open_library platform os path = None →
     fst (LoadComponent platform os tid path componentConfig p)
       = Throws (open_error platform os path) ∧
     contains path (exception_message (open_error platform os path)) = true ∧
     m_Components (snd (LoadComponent platform os tid path componentConfig p))
       = m_Components p) ∧
  (∀ hModule,
     open_library platform os path = Some hModule →
     factory_symbol platform os hModule = None →
     fst (LoadComponent platform os tid path componentConfig p)
       = Throws missing_factory_error ∧
     exception_message missing_factory_error
       = "Loadable module does not contain CreateComponent function"%string ∧
     (∀ platform' os' path', missing_factory_error ≠ open_error platform' os' path') ∧
     m_Components (snd (LoadComponent platform os tid path componentConfig p))
       = m_Components p).
Proof.
  intros Hmain. unfold LoadComponent. rewrite Hmain. cbn [negb].
  split.
  - intros Hopen. destruct platform; simpl in Hopen; rewrite Hopen; simpl.
    + split; [done|]. split; [|done].
      apply (contains_app "Could not load module '" path ("': " +:+ lt_dlerror os)).
    + split; [done|]. split; [|done].
      apply (contains_app "LoadLibrary('" path "') failed").
  - intros h Hopen Hsym. destruct platform; simpl in Hopen, Hsym;
      rewrite Hopen; cbn iota; rewrite Hsym; simpl.
    + repeat split; try done. by intros [] ? ?.
    + repeat split; try done. by intros [] ? ?.
Qed.

Lemma LoadComponent_errors_witness :
  fst (LoadComponent Posix bare_system thread1 "/nonexistent.so" 0%N running_process)
    = Throws (open_error Posix bare_system "/nonexistent.so") ∧
  fst (LoadComponent Posix system_without_factory thread1 "libdemo.so" 0%N
         running_process) = Throws missing_factory_error.
Proof.
  split.
  - destruct (LoadComponent_errors Posix bare_system thread1 "/nonexistent.so" 0%N
                running_process eq_refl) as [Hopen _].
    apply Hopen. reflexivity.
  - destruct (LoadComponent_errors Posix system_without_factory thread1 "libdemo.so"
                0%N running_process eq_refl) as [_ Hsym].
    apply (Hsym 1%N); reflexivity.
Defined.

(** ** The executable path *)

Lemma find_first_of_Some (c : ascii) (s : string) (i : nat) :
  find_first_of c s = Some i → String.get i s = Some c.
Proof.
  revert i. induction s as [|d s IH]; intros i; simpl; [done|].
  destruct (Ascii.eqb d c) eqn:E.
  - intros [= <-]. simpl. by apply Ascii.eqb_eq in E as ->.
  - destruct (find_first_of c s); [|done]. intros [= <-]. simpl. by apply IH.
Qed.

Lemma find_first_of_None (c : ascii) (s : string) :
  find_first_of c s = None → ∀ i, String.get i s ≠ Some c.
Proof.
  induction s as [|d s IH]; simpl; intros H i.
  - by destruct i.
  - destruct (Ascii.eqb d c) eqn:E; [done|].
    destruct (find_first_of c s); [done|].
    destruct i as [|i]; simpl.
    + intros [= ->]. by rewrite Ascii.eqb_refl in E.
    + by apply IH.
Qed.

(** The search answers the first directory, in list order, whose candidate
    is executable. *)
Lemma search_paths_Some (os : System) (dirs : list string) (argv0 hit : string) :
  search_paths os dirs argv0 = Some hit →
  ∃ before dir after,
    dirs = before ++ dir :: after ∧
    hit = dir +:+ "/" +:+ argv0 ∧
    access_X_OK os hit = true ∧
    ∀ d, d ∈ before → access_X_OK os (d +:+ "/" +:+ argv0) = false.
Proof.
  induction dirs as [|d dirs IH]; simpl; [done|].
  destruct (access_X_OK os (d +:+ "/" +:+ argv0)) eqn:E.
  - intros [= <-]. exists [], d, dirs. repeat split; try done.
    intros ? Hin. by apply not_elem_of_nil in Hin.
  - intros H. destruct (IH H) as (before & dir & after & -> & -> & Hacc & Hpre).
    exists (d :: before), dir, after. repeat split; try done.
    intros d' [->|Hin]%elem_of_cons; [done|]. by apply Hpre.
Qed.

Lemma search_paths_None (os : System) (dirs : list string) (argv0 : string) :
  search_paths os dirs argv0 = None ↔
  ∀ d, d ∈ dirs → access_X_OK os (d +:+ "/" +:+ argv0) = false.
Proof.
  induction dirs as [|d dirs IH]; simpl.
  - split; [|done]. intros _ ? Hin. by apply not_elem_of_nil in Hin.
  - destruct (access_X_OK os (d +:+ "/" +:+ argv0)) eqn:E.
    + split; [done|]. intros H. rewrite H in E; [done|]. by left.
    + rewrite IH. split.
      * intros H d' [->|Hin]%elem_of_cons; [done|]. by apply H.
      * intros H d' Hin. apply H. by right.
Qed.

Lemma resolve_against_char0 (workingDirectory argv0 : string) :
  (if negb (Ascii.eqb (char0 argv0) "/")
   then workingDirectory +:+ "/" +:+ argv0 else argv0)
  = resolve_against workingDirectory argv0.
Proof.
  unfold resolve_against, is_absolute.
  destruct argv0 as [|c s]; [done|]. cbn [char0].
  destruct (Ascii.eqb c "/") eqn:E.
  - by apply Ascii.eqb_eq in E as ->.
  - destruct c as [[] [] [] [] [] [] [] []]; try done.
Qed.

(** The claim as the specification words it fails when [PATH] is unset:
    argument 0 has no separator and no directory of [PATH] holds a match,
    yet the call succeeds, with argument 0 taken relative to the working
    directory. *)
Lemma GetExePath_unset_PATH_counterexample :
  find_first_of "/" "icinga2" = None ∧
  search_paths system_without_PATH (path_directories system_without_PATH) "icinga2"
    = None ∧
  fst (GetExePath Posix system_without_PATH running_process)
    = Returns "/opt/icinga2/bin/icinga2"%string.
Proof. repeat split. Qed.

(** C8 (amended).  On POSIX, with an empty cache and argument 0 [argv0]:
    a failing [getcwd] is a [PosixException]; otherwise, if [argv0]
    contains a slash it is taken relative to the working directory; if it
    contains none and [PATH] is set, the directories of [PATH] are tried
    in order, the first executable [dir/argv0] is taken and the call fails
    with a [runtime_error] when there is none; if it contains none and
    [PATH] is unset, [argv0] is taken relative to the working directory.
    The path taken goes through [realpath], whose failure is a
    [PosixException] and whose answer is returned and cached. *)
Theorem GetExePath_posix_policy os p argv0 rest :
  GetExePath_result p = EmptyString →
  m_Arguments p = argv0 :: rest →
  (getcwd os = None →
     GetExePath Posix os p = (Throws (PosixException "getcwd failed" (errno os)), p)) ∧
  (∀ workingDirectory, getcwd os = Some workingDirectory →
     (is_Some (find_first_of "/" argv0) →
        GetExePath Posix os p
          = canonicalize os p (resolve_against workingDirectory argv0)) ∧
     (find_first_of "/" argv0 = None → getenv os "PATH" = None →
        GetExePath Posix os p
          = canonicalize os p (workingDirectory +:+ "/" +:+ argv0)) ∧
     (find_first_of "/" argv0 = None →
      ∀ pathEnv, getenv os "PATH" = Some pathEnv →
        (∀ hit, search_paths os (split ":" pathEnv) argv0 = Some hit →
           GetExePath Posix os p = canonicalize os p hit ∧
           ∃ before dir after,
             split ":" pathEnv = before ++ dir :: after ∧
             hit = dir +:+ "/" +:+ argv0 ∧
             access_X_OK os hit = true ∧
             ∀ d, d ∈ before → access_X_OK os (d +:+ "/" +:+ argv0) = false) ∧
        ((∀ d, d ∈ split ":" pathEnv →
             access_X_OK os (d +:+ "/" +:+ argv0) = false) →
           GetExePath Posix os p
             = (Throws (runtime_error "Could not determine executable path."), p)))) ∧
  (∀ path, (canonicalize os p path
              = (Throws (PosixException "realpath failed" (errno os)), p)
            ∧ realpath os path = None) ∨
           (∃ buffer, realpath os path = Some buffer ∧
              canonicalize os p path = (Returns buffer, set_GetExePath_result buffer p))).
Proof.
  intros Hcache Hargs. unfold GetExePath. rewrite Hcache, Hargs. cbn [empty negb].
  split; [by intros ->|]. split.
  - intros wd ->. split; [|split].
    + intros [i Hi]. rewrite Hi, resolve_against_char0. reflexivity.
    + intros Hfind Hpath. rewrite Hfind, Hpath.
      assert (Ascii.eqb (char0 argv0) "/" = false) as ->; [|reflexivity].
      destruct argv0 as [|c s]; [done|]. simpl in *.
      by destruct (Ascii.eqb c "/").
    + intros -> pathEnv ->. split.
      * intros hit Hhit. rewrite Hhit. split; [reflexivity|].
        by apply search_paths_Some.
      * intros Hnone. apply search_paths_None in Hnone. by rewrite Hnone.
  - intros path. unfold canonicalize. destruct (realpath os path) as [buffer|].
    + right. by exists buffer.
    + by left.
Qed.

Lemma GetExePath_posix_policy_witness :
  GetExePath Posix system_with_PATH running_process
    = canonicalize system_with_PATH running_process "/usr/bin/icinga2" ∧
  GetExePath Posix system_without_PATH running_process
    = canonicalize system_without_PATH running_process "/opt/icinga2/bin/icinga2" ∧
  GetExePath Posix bare_system running_process
    = (Throws (PosixException "getcwd failed" 2), running_process).
Proof.
  split; [|split].
  - destruct (GetExePath_posix_policy system_with_PATH running_process "icinga2" []
                eq_refl eq_refl) as (_ & Hcwd & _).
    destruct (Hcwd "/opt/icinga2/bin"%string eq_refl) as (_ & _ & Hsearch).
    destruct (Hsearch eq_refl "/usr/local/bin:/usr/bin"%string eq_refl) as [Hhit _].
    apply (Hhit "/usr/bin/icinga2"%string). reflexivity.
  - destruct (GetExePath_posix_policy system_without_PATH running_process "icinga2" []
                eq_refl eq_refl) as (_ & Hcwd & _).
    destruct (Hcwd "/opt/icinga2/bin"%string eq_refl) as (_ & Hunset & _).
    apply Hunset; reflexivity.
  - destruct (GetExePath_posix_policy bare_system running_process "icinga2" []
                eq_refl eq_refl) as (Hfail & _).
    apply Hfail. reflexivity.
Defined.

Lemma is_absolute_nonempty (platform : Platform) (s : string) :
  is_absolute platform s = true → empty s = false.
Proof. destruct platform, s; done. Qed.

Lemma cache_ok_initial (platform : Platform) : cache_ok platform initial_process.
Proof. by left. Qed.

(** Only [GetExePath] writes the cache. *)
Lemma exec_GetExePath_result (platform : Platform) (o : Op) (p : Process) :
  GetExePath_result (exec platform o p) = GetExePath_result p.
Proof.
  destruct o; cbn [exec]; try done.
  - destruct platform; simpl; [done|]. by destruct debugger_present.
  - by destruct platform.
  - unfold SigIntHandler, CtrlHandler.
    destruct platform, (GetInstance p); done.
  - unfold UnregisterComponent. simpl. by destruct (m_Components p !! GetName c).
  - unfold Application_dtor.
    assert (∀ es q, GetExePath_result
              (foldl (fun q c => emit (Component_Stop c) q) q es)
            = GetExePath_result q) as Hfold.
    { induction es as [|c es IH]; intros q; [done|]. simpl. by rewrite IH. }
    destruct platform; simpl; by rewrite Hfold.
Qed.

(** A call that hits a filled cache answers it and changes nothing,
    whatever the system says by then. *)
Lemma GetExePath_cached (platform : Platform) (os : System) (p : Process) :
  empty (GetExePath_result p) = false →
  GetExePath platform os p = (Returns (GetExePath_result p), p).
Proof. intros H. unfold GetExePath. by rewrite H. Qed.

(** A successful call returns what the cache holds afterwards. *)
Lemma GetExePath_returns_cache (platform : Platform) (os : System)
    (p p1 : Process) (r : string) :
  GetExePath platform os p = (Returns r, p1) →
  GetExePath_result p1 = r ∧
  (empty (GetExePath_result p) = false → p1 = p) ∧
  (empty (GetExePath_result p) = true →
     match platform with
     | Posix => ∃ path, realpath os path = Some r
     | Win32 => GetModuleFileName os = r ∧ r ≠ EmptyString
     end).
Proof.
  unfold GetExePath. destruct (empty (GetExePath_result p)) eqn:E; cbn [negb].
  - destruct platform.
    + destruct (m_Arguments p) as [|argv0 ?]; [done|].
      destruct (getcwd os) as [wd|]; [|done].
      destruct (find_first_of "/" argv0);
        [|destruct (getenv os "PATH") as [pathEnv|];
          [destruct (search_paths os (split ":" pathEnv) argv0); [|done]|]];
        match goal with
        | |- context [realpath os ?path] =>
            destruct (realpath os path) as [buffer|] eqn:R; [|done];
            intros [= <- <-]; split; [done|]; split; [done|];
            intros _; by exists path
        end.
    + destruct (GetModuleFileName os) as [|c s] eqn:G; simpl; [done|].
      intros [= <- <-]. split; [done|]. split; [done|]. by intros _.
  - intros [= <- <-]. split; [done|]. split; [done|]. done.
Qed.

(** C9.  Let the cache be empty or absolute (as it is initially and stays)
    and let the system honour its contract.  Then a successful call returns
    an absolute path and leaves it in the cache, and the next call returns
    the same path and the same state without asking the system again: its
    answer does not depend on the system it runs against. *)
Theorem GetExePath_idempotent platform os os' p p1 r :
  system_conforms platform os →
  cache_ok platform p →
  GetExePath platform os p = (Returns r, p1) →
  is_absolute platform r = true ∧
  GetExePath_result p1 = r ∧
  GetExePath platform os' p1 = (Returns r, p1) ∧
  cache_ok platform p1.
Proof.
  intros Hos Hcache Hcall.
  destruct (GetExePath_returns_cache platform os p p1 r Hcall) as (Hr & Hhit & Hmiss).
  assert (is_absolute platform r = true) as Habs.
  { destruct (empty (GetExePath_result p)) eqn:E.
    - specialize (Hmiss eq_refl). destruct platform.
      + destruct Hmiss as [path Hpath]. by apply (Hos path r).
      + destruct Hmiss as [<- Hne]. by destruct Hos.
    - rewrite (Hhit eq_refl) in Hr. rewrite <- Hr.
      destruct Hcache as [Hc|Hc]; [|done]. by rewrite Hc in E. }
  split; [done|]. split; [done|]. split.
  - rewrite <- Hr at 1. rewrite <- Hr in Habs.
    apply GetExePath_cached. by apply (is_absolute_nonempty platform).
  - right. by rewrite Hr.
Qed.

Lemma GetExePath_idempotent_witness :
  GetExePath Posix system_later
    (snd (GetExePath Posix system_with_PATH running_process))
  = (Returns "/usr/bin/icinga2"%string,
     snd (GetExePath Posix system_with_PATH running_process)) ∧
  is_absolute Win32 "C:\icinga2\icinga2.exe" = true.
Proof.
  split.
  - apply (GetExePath_idempotent Posix system_with_PATH system_later running_process).
    + intros path buffer. unfold system_with_PATH. cbn [realpath].
      destruct (is_absolute Posix path) eqn:E; [|done]. by intros [= <-].
    + apply cache_ok_initial.
    + reflexivity.
  - apply (GetExePath_idempotent Win32 system_windows system_later initial_process
             (set_GetExePath_result "C:\icinga2\icinga2.exe" initial_process)).
    + by right.
    + apply cache_ok_initial.
    + reflexivity.
Defined.

(** ** The event loop *)

Lemma loop_view_app (t1 t2 : list Effect) :
  loop_view (t1 ++ t2) = loop_view t1 ++ loop_view t2.
Proof. apply filter_app. Qed.

Lemma loop_view_stops (es : list Component) (p : Process) :
  loop_view (trace (foldl (fun q c => emit (Component_Stop c) q) p es))
  = loop_view (trace p).
Proof.
  revert p. induction es as [|c es IH]; intros p; [done|].
  simpl. rewrite IH. simpl. rewrite loop_view_app. apply app_nil_r.
Qed.

(** No operation of the application makes a call of the loop. *)
Lemma exec_loop_view (platform : Platform) (o : Op) (p : Process) :
  loop_view (trace (exec platform o p)) = loop_view (trace p).
Proof.
  destruct o; cbn [exec].
  - destruct platform; simpl.
    + rewrite loop_view_app. apply app_nil_r.
    + destruct debugger_present; simpl; rewrite loop_view_app; apply app_nil_r.
  - destruct platform; simpl; rewrite ?loop_view_app; simpl; by rewrite ?app_nil_r.
  - done.
  - done.
  - unfold SigIntHandler, CtrlHandler.
    destruct platform, (GetInstance p); simpl; try done;
      rewrite loop_view_app; apply app_nil_r.
  - rewrite RegisterComponent_trace, loop_view_app. apply app_nil_r.
  - rewrite UnregisterComponent_trace, loop_view_app. apply app_nil_r.
  - unfold Application_dtor. destruct platform; simpl.
    + by rewrite loop_view_stops.
    + rewrite loop_view_app, loop_view_stops. apply app_nil_r.
Qed.

Lemma run_loop_view (platform : Platform) (ops : list Op) (p : Process) :
  loop_view (trace (run platform ops p)) = loop_view (trace p).
Proof.
  revert p. induction ops as [|o ops IH]; intros p; [done|].
  simpl. by rewrite IH, exec_loop_view.
Qed.

Lemma emit_loop_view (e : Effect) (p : Process) :
  is_loop_call e = true →
  loop_view (trace (emit e p)) = loop_view (trace p) ++ [e].
Proof.
  intros He. simpl. rewrite loop_view_app. f_equal.
  unfold loop_view. rewrite filter_cons, decide_True by done. done.
Qed.

Section EventLoopFacts.
Context {World : Type}.
Variable platform : Platform.
Variable rt : Runtime World.

Lemma after_timers_loop_view p ops0 sleep ops1 :
  loop_view (trace (after_timers platform p ops0 sleep ops1))
  = loop_view (trace p) ++ [Object_ClearHeldObjects; Timer_ProcessTimers sleep].
Proof.
  unfold after_timers.
  rewrite run_loop_view, emit_loop_view, run_loop_view, emit_loop_view by done.
  by rewrite <- app_assoc.
Qed.

(** The [for] loop calls the callbacks of the events in list order. *)
Lemma deliver_all_loop_view (events : list Event) (p : Process) (w : World) :
  loop_view (trace (fst (foldl (deliver platform rt) (p, w) events)))
  = loop_view (trace p) ++ (Event_OnEventDelivered <$> events).
Proof.
  revert p w. induction events as [|ev events IH]; intros p w.
  - simpl. by rewrite app_nil_r.
  - cbn [foldl]. unfold deliver at 2. cbn [fst snd].
    destruct (OnEventDelivered rt ev w) as [ops w'].
    rewrite IH, run_loop_view, emit_loop_view by done.
    by rewrite <- app_assoc.
Qed.

(** A pass in which the flag is set once the timers have run. *)
Lemma loop_body_break p w ops0 w0 sleep ops1 w1 :
  ClearHeldObjects rt w = (ops0, w0) →
  ProcessTimers rt w0 = (sleep, ops1, w1) →
  m_ShuttingDown (after_timers platform p ops0 sleep ops1) = true →
  loop_body platform rt p w
  = (Break, (after_timers platform p ops0 sleep ops1, w1)).
Proof.
  intros H0 H1 Hflag. unfold loop_body. rewrite H0, H1.
  fold (after_timers platform p ops0 sleep ops1). by rewrite Hflag.
Qed.

(** A pass in which it is not. *)
Lemma loop_body_continue p w ops0 w0 sleep ops1 w1 events ops2 w2 :
  ClearHeldObjects rt w = (ops0, w0) →
  ProcessTimers rt w0 = (sleep, ops1, w1) →
  m_ShuttingDown (after_timers platform p ops0 sleep ops1) = false →
  Wait rt (get_system_time rt w1 + sleep * ticks_per_second rt) w1
    = (events, ops2, w2) →
  loop_body platform rt p w
  = (Continue,
     foldl (deliver platform rt)
       (run platform ops2
          (emit (Event_Wait (get_system_time rt w1 + sleep * ticks_per_second rt))
                (after_timers platform p ops0 sleep ops1)), w2)
       events).
Proof.
  intros H0 H1 Hflag Hwait. unfold loop_body. rewrite H0, H1.
  fold (after_timers platform p ops0 sleep ops1). rewrite Hflag.
  cbn zeta. by rewrite Hwait.
Qed.

(** The calls of one pass, whichever way it ends. *)
Lemma loop_body_shape p w :
  match loop_body platform rt p w with
  | (Break, (p', _)) =>
      m_ShuttingDown p' = true ∧
      ∃ sleep, loop_view (trace p')
               = loop_view (trace p)
                 ++ [Object_ClearHeldObjects; Timer_ProcessTimers sleep]
  | (Continue, (p', _)) =>
      ∃ sleep deadline events,
        loop_view (trace p')
        = loop_view (trace p)
          ++ [Object_ClearHeldObjects; Timer_ProcessTimers sleep;
              Event_Wait deadline]
          ++ (Event_OnEventDelivered <$> events)
  end.
Proof.
  destruct (ClearHeldObjects rt w) as [ops0 w0] eqn:H0.
  destruct (ProcessTimers rt w0) as [[sleep ops1] w1] eqn:H1.
  destruct (m_ShuttingDown (after_timers platform p ops0 sleep ops1)) eqn:Hflag.
  - rewrite (loop_body_break _ _ _ _ _ _ _ H0 H1 Hflag).
    split; [done|]. exists sleep. apply after_timers_loop_view.
  - destruct (Wait rt (get_system_time rt w1 + sleep * ticks_per_second rt) w1)
      as [[events ops2] w2] eqn:Hwait.
    rewrite (loop_body_continue _ _ _ _ _ _ _ _ _ _ H0 H1 Hflag Hwait).
    destruct (foldl _ _ events) as [p' w'] eqn:Hfold.
    exists sleep, (get_system_time rt w1 + sleep * ticks_per_second rt), events.
    change p' with (fst (p', w')). rewrite <- Hfold.
    rewrite deliver_all_loop_view, run_loop_view, emit_loop_view by done.
    rewrite after_timers_loop_view. by rewrite <- !app_assoc.
Qed.

(** From entry to exit the loop writes complete passes and at most one
    closing pass that breaks after the timers. *)
Lemma RunEventLoop_loop_trace fuel p w p' w' :
  RunEventLoop platform rt fuel p w = Some (p', w') →
  m_ShuttingDown p' = true ∧
  ∃ t, loop_trace t ∧ loop_view (trace p') = loop_view (trace p) ++ t.
Proof.
  revert p w. induction fuel as [|fuel IH]; intros p w; simpl.
  - destruct (m_ShuttingDown p) eqn:Hp; [|done]. intros [= <- <-].
    split; [done|]. exists []. split; [constructor|by rewrite app_nil_r].
  - destruct (m_ShuttingDown p) eqn:Hp.
    + intros [= <- <-]. split; [done|].
      exists []. split; [constructor|by rewrite app_nil_r].
    + pose proof (loop_body_shape p w) as Hshape.
      destruct (loop_body platform rt p w) as [[] [q v]].
      * intros [= <- <-]. destruct Hshape as [Hq [sleep Hview]].
        split; [done|]. exists [Object_ClearHeldObjects; Timer_ProcessTimers sleep].
        split; [constructor|done].
      * intros Hrest. destruct Hshape as (sleep & deadline & events & Hview).
        destruct (IH q v Hrest) as [Hp' (t & Ht & Hview')].
        split; [done|].
        exists ([Object_ClearHeldObjects; Timer_ProcessTimers sleep;
                 Event_Wait deadline] ++ (Event_OnEventDelivered <$> events) ++ t).
        split; [by constructor|]. rewrite Hview', Hview.
        by rewrite <- !app_assoc.
Qed.
End EventLoopFacts.

(** C2.  A pass of [RunEventLoop], entered with cleanup answering [ops0]
    and the timers answering [sleep] and [ops1], makes these calls in this
    order: [Object::ClearHeldObjects], [Timer::ProcessTimers], then the
    test of the flag.  With the flag set the pass breaks there: the loop
    returns, and nothing was added to the trace after the timers, no wait
    in particular.  With the flag clear the pass goes on with [Event::Wait]
    until clock plus [sleep] seconds and then [OnEventDelivered] for each
    event the wait handed out, in list order.  A loop that is entered with
    the flag set makes no call; and from entry to exit the calls of the
    loop are a sequence of complete passes, closed by at most one pass that
    breaks after the timers. *)
Theorem RunEventLoop_iteration {World : Type} (platform : Platform)
    (rt : Runtime World) p w ops0 w0 sleep ops1 w1 :
  ClearHeldObjects rt w = (ops0, w0) →
  ProcessTimers rt w0 = (sleep, ops1, w1) →
  (m_ShuttingDown (after_timers platform p ops0 sleep ops1) = true →
     loop_body platform rt p w
       = (Break, (after_timers platform p ops0 sleep ops1, w1)) ∧
     loop_view (trace (after_timers platform p ops0 sleep ops1))
       = loop_view (trace p) ++ [Object_ClearHeldObjects; Timer_ProcessTimers sleep] ∧
     (m_ShuttingDown p = false →
        ∀ fuel, RunEventLoop platform rt (S fuel) p w
                = Some (after_timers platform p ops0 sleep ops1, w1))) ∧
  (m_ShuttingDown (after_timers platform p ops0 sleep ops1) = false →
     ∀ events ops2 w2,
       Wait rt (get_system_time rt w1 + sleep * ticks_per_second rt) w1
         = (events, ops2, w2) →
       ∃ p' w',
         loop_body platform rt p w = (Continue, (p', w')) ∧
         loop_view (trace p')
         = loop_view (trace p)
           ++ [Object_ClearHeldObjects; Timer_ProcessTimers sleep;
               Event_Wait (get_system_time rt w1 + sleep * ticks_per_second rt)]
           ++ (Event_OnEventDelivered <$> events)) ∧
  (m_ShuttingDown p = true → ∀ fuel, RunEventLoop platform rt fuel p w = Some (p, w)) ∧
  (∀ fuel p' w',
     RunEventLoop platform rt fuel p w = Some (p', w') →
     m_ShuttingDown p' = true ∧
     ∃ t, loop_trace t ∧ loop_view (trace p') = loop_view (trace p) ++ t).
Proof.
  intros H0 H1. split; [|split; [|split]].
  - intros Hflag.
    pose proof (loop_body_break platform rt p w _ _ _ _ _ H0 H1 Hflag) as Hbody.
    split; [done|]. split; [apply after_timers_loop_view|].
    intros Hp fuel. cbn [RunEventLoop]. by rewrite Hp, Hbody.
  - intros Hflag events ops2 w2 Hwait.
    pose proof (loop_body_continue platform rt p w _ _ _ _ _ _ _ _ H0 H1 Hflag Hwait)
      as Hbody.
    destruct (foldl _ _ events) as [p' w'] eqn:Hfold.
    exists p', w'. split; [done|].
    change p' with (fst (p', w')). rewrite <- Hfold.
    rewrite deliver_all_loop_view, run_loop_view, emit_loop_view by done.
    rewrite after_timers_loop_view. by rewrite <- !app_assoc.
  - intros Hp fuel. destruct fuel; simpl; by rewrite Hp.
  - intros fuel p' w'. apply RunEventLoop_loop_trace.
Qed.

Lemma RunEventLoop_iteration_witness :
  (∃ p' w',
     loop_body Posix sample_runtime running_process 0%nat = (Continue, (p', w')) ∧
     loop_view (trace p')
     = loop_view (trace running_process)
       ++ [Object_ClearHeldObjects; Timer_ProcessTimers 5; Event_Wait 1005]
       ++ (Event_OnEventDelivered <$> [1%N; 2%N])) ∧
  RunEventLoop Posix sample_runtime 1 after_first_pass 1%nat
  = Some (after_timers Posix after_first_pass [] 5 [OpShutdown], 2%nat).
Proof.
  split.
  - destruct (RunEventLoop_iteration Posix sample_runtime running_process 0%nat
                [] 0%nat 5 [] 1%nat eq_refl eq_refl) as (_ & Hpass & _).
    apply (Hpass eq_refl [1%N; 2%N] [] 1%nat). reflexivity.
  - destruct (RunEventLoop_iteration Posix sample_runtime after_first_pass 1%nat
                [] 1%nat 5 [OpShutdown] 2%nat eq_refl eq_refl) as (Hbreak & _).
    destruct (Hbreak eq_refl) as (_ & _ & Hloop).
    apply (Hloop eq_refl 0%nat).
Defined.

(** * Further properties of application.cpp *)

(** ** Registry: lookup laws, key invariant, accounting of calls *)

Lemma calls_fmap_not_in (f : Component → Effect) `{!Inj (=) (=) f}
    (c : Component) (cs : list Component) :
  c ∉ cs → calls (f c) (f <$> cs) = 0%nat.
Proof.
  induction cs as [|d cs IH]; intros Hc; [done|].
  apply not_elem_of_cons in Hc as [Hne Hc].
  change (f <$> d :: cs) with ([f d] ++ (f <$> cs)).
  rewrite calls_app, calls_one, IH by done.
  rewrite decide_False; [done|]. intros Heq. by apply (inj f) in Heq.
Qed.

Lemma calls_fmap_NoDup (f : Component → Effect) `{!Inj (=) (=) f}
    (c : Component) (cs : list Component) :
  NoDup cs →
  calls (f c) (f <$> cs) = if decide (c ∈ cs) then 1%nat else 0%nat.
Proof.
  intros Hnd. destruct (decide (c ∈ cs)) as [Hin|Hout];
    [|by apply calls_fmap_not_in].
  induction Hnd as [|d cs Hd Hnd IH]; [by apply not_elem_of_nil in Hin|].
  change (f <$> d :: cs) with ([f d] ++ (f <$> cs)).
  rewrite calls_app, calls_one.
  apply elem_of_cons in Hin as [->|Hin].
  - rewrite decide_True by done. by rewrite calls_fmap_not_in.
  - rewrite decide_False; [by rewrite IH|].
    intros Heq. apply (inj f) in Heq. by subst.
Qed.

#[local] Instance Component_Stop_inj : Inj (=) (=) Component_Stop.
Proof. by intros ?? [=]. Qed.

Lemma GetComponent_Register (c : Component) (p : Process) (n : string) :
  GetComponent n (RegisterComponent c p)
  = if decide (n = GetName c) then Some c else GetComponent n p.
Proof.
  rewrite !GetComponent_lookup, RegisterComponent_components.
  destruct (decide (n = GetName c)) as [->|Hne].
  - apply lookup_insert_eq.
  - by apply lookup_insert_ne.
Qed.

Lemma GetComponent_Unregister (c : Component) (p : Process) (n : string) :
  GetComponent n (UnregisterComponent c p)
  = if decide (n = GetName c) then None else GetComponent n p.
Proof.
  rewrite !GetComponent_lookup, UnregisterComponent_components.
  destruct (decide (n = GetName c)) as [->|Hne].
  - apply lookup_delete_eq.
  - by apply lookup_delete_ne.
Qed.

(** X1.  Lookup laws of the registry.  [RegisterComponent c] binds the name
    of [c] to [c] and [UnregisterComponent c] unbinds it; neither touches
    the binding of any other name.  Registering and then unregistering a
    component leaves the registry without a binding for its name, which is
    the registry as it was when the name was free before; the component
    ends up stopped. *)
Theorem registry_lookup_laws (c : Component) (p : Process) :
  (∀ n, GetComponent n (RegisterComponent c p)
        = if decide (n = GetName c) then Some c else GetComponent n p) ∧
  (∀ n, GetComponent n (UnregisterComponent c p)
        = if decide (n = GetName c) then None else GetComponent n p) ∧
  m_Components (UnregisterComponent c (RegisterComponent c p))
    = delete (GetName c) (m_Components p) ∧
  (GetComponent (GetName c) p = None →
     m_Components (UnregisterComponent c (RegisterComponent c p)) = m_Components p) ∧
  trace (UnregisterComponent c (RegisterComponent c p))
    = trace p ++ [Component_Start c;
                  Logger_Write LogInformation "base"
                    ("Unloading component '" +:+ GetName c +:+ "'");
                  Component_Stop c] ∧
  lifecycle c (trace (UnregisterComponent c (RegisterComponent c p))) = Stopped.
Proof.
  split; [intros n; apply GetComponent_Register|].
  split; [intros n; apply GetComponent_Unregister|].
  assert (m_Components (UnregisterComponent c (RegisterComponent c p))
          = delete (GetName c) (m_Components p)) as Hdel.
  { rewrite UnregisterComponent_components, RegisterComponent_components.
    apply delete_insert_eq. }
  split; [done|]. split.
  { rewrite GetComponent_lookup. intros Hfree. rewrite Hdel. by apply delete_id. }
  assert (trace (UnregisterComponent c (RegisterComponent c p))
          = trace p ++ [Component_Start c;
                  Logger_Write LogInformation "base"
                    ("Unloading component '" +:+ GetName c +:+ "'");
                  Component_Stop c]) as Htrace.
  { rewrite UnregisterComponent_trace, RegisterComponent_trace.
    by rewrite <- app_assoc. }
  split; [done|].
  rewrite Htrace, lifecycle_app. simpl. by rewrite !decide_True.
Qed.

Lemma registry_lookup_laws_witness :
  m_Components (UnregisterComponent compB
                  (RegisterComponent compB (RegisterComponent compA initial_process)))
  = m_Components (RegisterComponent compA initial_process).
Proof.
  destruct (registry_lookup_laws compB (RegisterComponent compA initial_process))
    as (_ & _ & _ & Hfree & _).
  apply Hfree. reflexivity.
Defined.

Lemma registry_wf_initial : registry_wf initial_process.
Proof. intros name c. simpl. by rewrite lookup_empty. Qed.

Lemma registry_wf_Register (c : Component) (p : Process) :
  registry_wf p → registry_wf (RegisterComponent c p).
Proof.
  intros Hwf name d. rewrite RegisterComponent_components.
  destruct (decide (GetName c = name)) as [<-|Hne].
  - rewrite lookup_insert_eq. by intros [= <-].
  - rewrite lookup_insert_ne by done. apply Hwf.
Qed.

Lemma registry_wf_Unregister (c : Component) (p : Process) :
  registry_wf p → registry_wf (UnregisterComponent c p).
Proof.
  intros Hwf name d. rewrite UnregisterComponent_components.
  destruct (decide (GetName c = name)) as [<-|Hne].
  - by rewrite lookup_delete_eq.
  - rewrite lookup_delete_ne by done. apply Hwf.
Qed.

Lemma stops_Components (es : list Component) (p : Process) :
  m_Components (foldl (fun q c => emit (Component_Stop c) q) p es) = m_Components p.
Proof.
  revert p. induction es as [|c es IH]; intros p; [done|]. simpl. by rewrite IH.
Qed.

Lemma Application_dtor_Components (platform : Platform) (p : Process) :
  m_Components (Application_dtor platform p) = ∅.
Proof. unfold Application_dtor. by destruct platform. Qed.

Lemma exec_registry_wf (platform : Platform) (o : Op) (p : Process) :
  registry_wf p → registry_wf (exec platform o p).
Proof.
  intros Hwf. destruct o; cbn [exec].
  - destruct platform; simpl; [done|]. by destruct debugger_present.
  - by destruct platform.
  - done.
  - done.
  - unfold SigIntHandler, CtrlHandler. by destruct platform, (GetInstance p).
  - by apply registry_wf_Register.
  - by apply registry_wf_Unregister.
  - intros name c. rewrite Application_dtor_Components. by rewrite lookup_empty.
Qed.

(** X2.  The keys of the registry are the names of the components bound to
    them: true of the initial process, kept by every operation of the
    application in any order, and kept by [LoadComponent] whatever the
    loader answers. *)
Theorem registry_keys_are_names (platform : Platform) (ops : list Op) (p : Process) :
  registry_wf initial_process ∧
  (registry_wf p → registry_wf (run platform ops p)) ∧
  (registry_wf p → ∀ os tid path componentConfig,
     registry_wf (snd (LoadComponent platform os tid path componentConfig p))).
Proof.
  split; [apply registry_wf_initial|]. split.
  - revert p. induction ops as [|o ops IH]; intros p Hwf; [done|].
    simpl. apply IH. by apply exec_registry_wf.
  - intros Hwf os tid path cfg. unfold LoadComponent.
    destruct (IsMainThread tid p); cbn [negb]; [|done].
    destruct platform.
    + destruct (lt_dlopen os path) as [h|]; [|done].
      destruct (lt_dlsym os h "CreateComponent") as [[c|]|]; try done.
      cbn [snd]. apply registry_wf_Register. done.
    + destruct (LoadLibrary os path) as [h|]; [|done].
      destruct (GetProcAddress os h "CreateComponent") as [[c|]|]; try done.
      cbn [snd]. apply registry_wf_Register. done.
Qed.

Lemma registry_keys_are_names_witness :
  registry_wf (run Posix [OpRegisterComponent compA; OpRegisterComponent compA';
                          OpUnregisterComponent compB; OpRegisterComponent compC]
                 initial_process).
Proof.
  destruct (registry_keys_are_names Posix
              [OpRegisterComponent compA; OpRegisterComponent compA';
               OpUnregisterComponent compB; OpRegisterComponent compC]
              initial_process) as (Hinit & Hrun & _).
  apply Hrun. exact Hinit.
Defined.

(** ** Teardown *)

Lemma stops_trace (es : list Component) (p : Process) :
  trace (foldl (fun q c => emit (Component_Stop c) q) p es)
  = trace p ++ (Component_Stop <$> es).
Proof.
  revert p. induction es as [|c es IH]; intros p.
  - simpl. by rewrite app_nil_r.
  - simpl. rewrite IH. simpl. by rewrite <- app_assoc.
Qed.

Lemma Application_dtor_trace (platform : Platform) (p : Process) :
  trace (Application_dtor platform p)
  = trace p ++ (Component_Stop <$> components_in_order (m_Components p))
            ++ teardown_tail platform.
Proof.
  unfold Application_dtor. destruct platform; simpl.
  - by rewrite stops_trace, app_nil_r.
  - by rewrite stops_trace, <- app_assoc.
Qed.

#[local] Instance key_order_total :
  Total (fun a b : string * Component => String.le (fst a) (fst b)).
Proof. intros a b. apply (total String.le). Qed.

(** The components in teardown order, with their keys. *)
Lemma components_in_order_keys (m : gmap string Component) :
  (∀ name c, m !! name = Some c → GetName c = name) →
  GetName <$> components_in_order m
  = fst <$> merge_sort (fun a b => String.le (fst a) (fst b)) (map_to_list m).
Proof.
  intros Hwf. unfold components_in_order. rewrite <- list_fmap_compose.
  apply list_fmap_ext. intros i [k c] Hi. simpl.
  apply Hwf. apply elem_of_map_to_list.
  rewrite <- (merge_sort_Permutation (fun a b => String.le (fst a) (fst b))).
  by apply list_elem_of_lookup_2 in Hi.
Qed.

Lemma components_in_order_sorted (m : gmap string Component) :
  (∀ name c, m !! name = Some c → GetName c = name) →
  Sorted String.le (GetName <$> components_in_order m).
Proof.
  intros Hwf. rewrite components_in_order_keys by done.
  apply (Sorted_fmap fst (fun a b => String.le (fst a) (fst b)) String.le).
  - done.
  - apply Sorted_merge_sort. apply _.
Qed.

Lemma components_in_order_NoDup (m : gmap string Component) :
  (∀ name c, m !! name = Some c → GetName c = name) →
  NoDup (components_in_order m).
Proof.
  intros Hwf. apply (NoDup_fmap_1 GetName).
  rewrite components_in_order_keys by done.
  rewrite (merge_sort_Permutation (fun a b => String.le (fst a) (fst b))).
  apply NoDup_fst_map_to_list.
Qed.

Lemma elem_of_components_in_order (m : gmap string Component) (c : Component) :
  (∀ name d, m !! name = Some d → GetName d = name) →
  c ∈ components_in_order m ↔ m !! GetName c = Some c.
Proof.
  intros Hwf. unfold components_in_order. rewrite list_elem_of_fmap. split.
  - intros [[k d] [-> Hin]]. simpl.
    rewrite (merge_sort_Permutation (fun a b => String.le (fst a) (fst b))) in Hin.
    apply elem_of_map_to_list in Hin. by rewrite (Hwf _ _ Hin).
  - intros Hc. exists (GetName c, c). split; [done|].
    rewrite (merge_sort_Permutation (fun a b => String.le (fst a) (fst b))).
    by apply elem_of_map_to_list.
Qed.

(** X3.  Teardown.  In a process whose registry is keyed by component
    names, the destructor sets the shutdown flag (so that [GetInstance]
    answers null), calls [Stop] exactly once on every component that is
    registered and on no other, in ascending order of their names, makes no
    other call but the platform's cleanup, and leaves the registry empty. *)
Theorem teardown_stops_registered (platform : Platform) (p : Process) :
  registry_wf p →
  m_ShuttingDown (Application_dtor platform p) = true ∧
  GetInstance (Application_dtor platform p) = None ∧
  m_Components (Application_dtor platform p) = ∅ ∧
  (∀ c, calls (Component_Stop c) (trace (Application_dtor platform p))
        = (calls (Component_Stop c) (trace p)
           + if decide (GetComponent (GetName c) p = Some c) then 1 else 0)%nat) ∧
  ∃ cs, Sorted String.le (GetName <$> cs) ∧
        NoDup cs ∧
        (∀ c, c ∈ cs ↔ GetComponent (GetName c) p = Some c) ∧
        trace (Application_dtor platform p)
        = trace p ++ (Component_Stop <$> cs) ++ teardown_tail platform.
Proof.
  intros Hwf.
  assert (m_ShuttingDown (Application_dtor platform p) = true) as Hflag.
  { unfold Application_dtor. destruct platform; simpl;
      by rewrite emit_all_ShuttingDown. }
  split; [done|]. split; [unfold GetInstance; by rewrite Hflag|].
  split; [apply Application_dtor_Components|].
  pose proof (components_in_order_NoDup _ Hwf) as Hnd.
  split.
  - intros c. rewrite Application_dtor_trace, !calls_app.
    rewrite (calls_fmap_NoDup Component_Stop) by done.
    assert (calls (Component_Stop c) (teardown_tail platform) = 0%nat) as ->.
    { destruct platform; [done|]. simpl. rewrite calls_one.
      by rewrite decide_False. }
    rewrite GetComponent_lookup.
    destruct (decide (c ∈ components_in_order (m_Components p))) as [Hin|Hout].
    + apply elem_of_components_in_order in Hin; [|done].
      rewrite decide_True by done. lia.
    + rewrite decide_False; [lia|]. intros Hc. apply Hout.
      by apply elem_of_components_in_order.
  - exists (components_in_order (m_Components p)).
    split; [by apply components_in_order_sorted|]. split; [done|].
    split; [|apply Application_dtor_trace].
    intros c. rewrite GetComponent_lookup. by apply elem_of_components_in_order.
Qed.

Lemma teardown_stops_registered_witness :
  calls (Component_Stop compA)
        (trace (Application_dtor Posix
                  (RegisterAll [compC; compA; compB] initial_process))) = 1%nat.
Proof.
  destruct (teardown_stops_registered Posix
              (RegisterAll [compC; compA; compB] initial_process))
    as (_ & _ & _ & Hstop & _).
  - intros name c.
    change (RegisterAll [compC; compA; compB] initial_process)
      with (run Posix [OpRegisterComponent compC; OpRegisterComponent compA;
                       OpRegisterComponent compB] initial_process).
    revert name c.
    assert (∀ ops q, registry_wf q → registry_wf (run Posix ops q)) as Hrun.
    { induction ops as [|o ops IH]; intros q Hq; [done|].
      simpl. apply IH. by apply exec_registry_wf. }
    apply Hrun, registry_wf_initial.
  - rewrite Hstop. reflexivity.
Defined.

(** ** Who calls Start and Stop *)

Lemma exec_calls_Start (platform : Platform) (o : Op) (p : Process) (c : Component) :
  calls (Component_Start c) (trace (exec platform o p))
  = (calls (Component_Start c) (trace p) + if is_register c o then 1 else 0)%nat.
Proof.
  destruct o; cbn [exec is_register].
  - destruct platform; simpl.
    + rewrite calls_app, calls_one, decide_False by done. lia.
    + destruct debugger_present; simpl;
        rewrite calls_app, calls_one, decide_False by done; lia.
  - destruct platform; simpl; rewrite !calls_app, !calls_one;
      rewrite !decide_False by done; lia.
  - simpl. lia.
  - simpl. lia.
  - unfold SigIntHandler, CtrlHandler.
    destruct platform, (GetInstance p); simpl; try lia;
      rewrite calls_app, calls_one, decide_False by done; lia.
  - rewrite RegisterComponent_trace, calls_app, calls_one.
    destruct (decide (c0 = c)) as [->|Hne].
    + rewrite decide_True, bool_decide_eq_true_2 by done. done.
    + rewrite decide_False, bool_decide_eq_false_2 by congruence. done.
  - rewrite UnregisterComponent_trace, calls_app.
    change [Logger_Write LogInformation "base"
              ("Unloading component '" +:+ GetName c0 +:+ "'"); Component_Stop c0]
      with ([Logger_Write LogInformation "base"
              ("Unloading component '" +:+ GetName c0 +:+ "'")] ++ [Component_Stop c0]).
    rewrite calls_app, !calls_one, !decide_False by done. lia.
  - rewrite Application_dtor_trace, !calls_app.
    assert (∀ es, calls (Component_Start c) (Component_Stop <$> es) = 0%nat) as ->.
    { induction es as [|d es IH]; [done|].
      change (Component_Stop <$> d :: es) with ([Component_Stop d] ++ (Component_Stop <$> es)).
      by rewrite calls_app, calls_one, decide_False, IH. }
    destruct platform; cbn [teardown_tail is_register].
    + rewrite calls_nil. lia.
    + rewrite calls_one, decide_False by done. lia.
Qed.

Lemma exec_calls_Stop (platform : Platform) (o : Op) (p : Process) (c : Component) :
  is_stopping o = false →
  calls (Component_Stop c) (trace (exec platform o p))
  = calls (Component_Stop c) (trace p).
Proof.
  destruct o; cbn [exec is_stopping]; intros Hns; try done.
  - destruct platform; simpl.
    + rewrite calls_app, calls_one, decide_False by done. lia.
    + destruct debugger_present; simpl;
        rewrite calls_app, calls_one, decide_False by done; lia.
  - destruct platform; simpl; rewrite !calls_app, !calls_one;
      rewrite !decide_False by done; lia.
  - unfold SigIntHandler, CtrlHandler.
    destruct platform, (GetInstance p); simpl; try lia;
      rewrite calls_app, calls_one, decide_False by done; lia.
  - rewrite RegisterComponent_trace, calls_app, calls_one, decide_False by done. lia.
Qed.

(** X4.  Who calls [Start] and [Stop].  Along any run of operations of the
    application, [Start] is called on a component once per
    [RegisterComponent] on it and by nothing else; and as long as the run
    holds no [UnregisterComponent] and no destructor, no [Stop] is called
    on any component: [Shutdown], the interrupt handlers and a replacing
    registration stop nothing. *)
Theorem start_stop_accounting (platform : Platform) (ops : list Op) (p : Process)
    (c : Component) :
  calls (Component_Start c) (trace (run platform ops p))
    = (calls (Component_Start c) (trace p) + registrations c ops)%nat ∧
  (forallb (fun o => negb (is_stopping o)) ops = true →
     calls (Component_Stop c) (trace (run platform ops p))
       = calls (Component_Stop c) (trace p)).
Proof.
  split.
  - revert p. induction ops as [|o ops IH]; intros p.
    + simpl. unfold registrations. simpl. lia.
    + cbn [run foldl]. fold (run platform ops (exec platform o p)).
      rewrite IH, exec_calls_Start. unfold registrations. simpl.
      destruct (is_register c o); simpl; lia.
  - revert p. induction ops as [|o ops IH]; intros p Hns; [done|].
    simpl in Hns. apply andb_true_iff in Hns as [Ho Hns].
    cbn [run foldl]. fold (run platform ops (exec platform o p)).
    rewrite IH by done. apply exec_calls_Stop. by destruct (is_stopping o).
Qed.

Lemma start_stop_accounting_witness :
  calls (Component_Stop compA)
        (trace (run Posix [OpRegisterComponent compA; OpShutdown; OpInterrupt;
                           OpRegisterComponent compA'] initial_process)) = 0%nat.
Proof.
  destruct (start_stop_accounting Posix
              [OpRegisterComponent compA; OpShutdown; OpInterrupt;
               OpRegisterComponent compA'] initial_process compA) as [_ Hstop].
  rewrite Hstop; reflexivity.
Defined.

(** ** The interrupt handlers *)

Lemma exec_Interrupt_idle (platform : Platform) (p : Process) :
  GetInstance p = None → exec platform OpInterrupt p = p.
Proof.
  intros H. cbn [exec]. unfold SigIntHandler, CtrlHandler. rewrite H.
  by destruct platform.
Qed.

Lemma exec_Interrupt_trips (platform : Platform) (p : Process) (a : AppPtr) :
  GetInstance p = Some a →
  exec platform OpInterrupt p = emit (interrupt_reset platform) (Shutdown p).
Proof.
  intros H. cbn [exec]. unfold SigIntHandler, CtrlHandler. rewrite H.
  by destruct platform.
Qed.







(** ** Debug mode *)

Lemma exec_Debugging (platform : Platform) (o : Op) (p : Process) :
  is_construct o = false → m_Debugging (exec platform o p) = m_Debugging p.
Proof.
  destruct o; cbn [exec is_construct]; intros Hc; try done.
  - by destruct platform.
  - unfold SigIntHandler, CtrlHandler. by destruct platform, (GetInstance p).
  - unfold UnregisterComponent. simpl. by destruct (m_Components p !! GetName c).
  - unfold Application_dtor.
    assert (∀ es q, m_Debugging (foldl (fun q c => emit (Component_Stop c) q) q es)
                    = m_Debugging q) as Hfold.
    { induction es as [|c es IH]; intros q; [done|]. simpl. by rewrite IH. }
    destruct platform; simpl; by rewrite Hfold.
Qed.

(** X6.  Debug mode is decided by the constructor and by nothing else.  A
    constructor that gets through sets it to: [_DEBUG] is set and parses
    to a nonzero number, or (Windows) a debugger is attached; it leaves
    the shutdown flag, the singleton and the registry alone.  On Windows a
    failing [WSAStartup] throws before the mode is touched.  No later
    operation changes the mode. *)
Theorem debug_mode_set_at_construction (platform : Platform) (p : Process) :
  (∀ debug_env debugger_present,
     fst (Application_ctor platform None debug_env debugger_present p) = Returns tt ∧
     IsDebugging (snd (Application_ctor platform None debug_env debugger_present p))
       = debug_decision platform debug_env debugger_present ∧
     m_ShuttingDown (snd (Application_ctor platform None debug_env debugger_present p))
       = m_ShuttingDown p ∧
     m_Instance (snd (Application_ctor platform None debug_env debugger_present p))
       = m_Instance p ∧
     m_Components (snd (Application_ctor platform None debug_env debugger_present p))
       = m_Components p) ∧
  (∀ code debug_env debugger_present,
     fst (Application_ctor Win32 (Some code) debug_env debugger_present p)
       = Throws (Win32Exception "WSAStartup failed" code) ∧
     IsDebugging (snd (Application_ctor Win32 (Some code) debug_env debugger_present p))
       = IsDebugging p) ∧
  (∀ code debug_env debugger_present,
     fst (Application_ctor Posix (Some code) debug_env debugger_present p) = Returns tt) ∧
  (∀ ops, forallb (fun o => negb (is_construct o)) ops = true →
     IsDebugging (run platform ops p) = IsDebugging p).
Proof.
  split; [|split; [|split]].
  - intros debug_env debugger_present. unfold debug_decision, IsDebugging.
    destruct platform; simpl.
    + by rewrite orb_false_r.
    + destruct debugger_present; simpl.
      * by rewrite orb_true_r.
      * by rewrite orb_false_r.
  - done.
  - done.
  - intros ops. revert p. induction ops as [|o ops IH]; intros p Hc; [done|].
    simpl in Hc. apply andb_true_iff in Hc as [Ho Hc].
    cbn [run foldl]. fold (run platform ops (exec platform o p)).
    rewrite IH by done. unfold IsDebugging. apply exec_Debugging.
    by destruct (is_construct o).
Qed.

Lemma debug_mode_set_at_construction_witness :
  IsDebugging (run Posix [OpRunPrologue app1 thread1 []; OpShutdown; OpDestruct]
                 (snd (Application_ctor Posix None (Some 1) false initial_process)))
  = true.
Proof.
  destruct (debug_mode_set_at_construction Posix
              (snd (Application_ctor Posix None (Some 1) false initial_process)))
    as (_ & _ & _ & Hframe).
  rewrite Hframe; reflexivity.
Defined.

(** ** Run: the normal return, and a second Run *)

(** X7.  Let [Run] be called with no singleton set and let the entry point
    return [result], leaving the process in state [p'].  [Run] returns
    [result].  In debug mode it releases the singleton first; without debug
    mode it does nothing after the entry point, so the singleton is still
    set unless the entry point cleared it.  A [Run] on a process whose
    singleton is set fails its assertion before it changes anything or
    calls the entry point; so after a normal return without debug mode a
    second [Run] fails that assertion. *)
Theorem Run_normal_return GetTypeName what Main platform self tid argv p result p' :
  m_Instance p = None →
  Main argv (Run_prologue platform self tid argv p) = (Returns result, p') →
  (IsDebugging p = true →
     Run GetTypeName what Main platform self tid argv p
       = (Returns result, set_Instance None p')) ∧
  (IsDebugging p = false →
     Run GetTypeName what Main platform self tid argv p = (Returns result, p')) ∧
  (∀ q a Main' self' tid' argv',
     m_Instance q = Some a →
     Run GetTypeName what Main' platform self' tid' argv' q = (AssertionFailed, q)) ∧
  (IsDebugging p = false → ∀ a, m_Instance p' = Some a →
     ∀ Main' self' tid' argv',
       Run GetTypeName what Main' platform self' tid' argv'
           (snd (Run GetTypeName what Main platform self tid argv p))
       = (AssertionFailed, p')).
Proof.
  intros Hinst Hmain.
  assert (∀ q a Main' self' tid' argv',
     m_Instance q = Some a →
     Run GetTypeName what Main' platform self' tid' argv' q = (AssertionFailed, q))
    as Hassert.
  { intros q a Main' self' tid' argv' Hq. unfold Run. by rewrite Hq. }
  assert (IsDebugging p = false →
     Run GetTypeName what Main platform self tid argv p = (Returns result, p'))
    as Hplain.
  { intros Hdbg. unfold Run. rewrite Hinst.
    rewrite Run_prologue_IsDebugging, Run_prologue_Arguments, Hmain.
    by rewrite Hdbg. }
  split; [|split; [done|split; [done|]]].
  - intros Hdbg. unfold Run. rewrite Hinst.
    rewrite Run_prologue_IsDebugging, Run_prologue_Arguments, Hmain.
    by rewrite Hdbg.
  - intros Hdbg a Ha Main' self' tid' argv'.
    rewrite (Hplain Hdbg). cbn [snd]. by apply (Hassert p' a).
Qed.

Lemma Run_normal_return_witness :
  Run type_name_of exception_message main_counts Posix app1 thread1
      ["icinga2"%string; "-c"%string] initial_process
  = (Returns 2, Run_prologue Posix app1 thread1 ["icinga2"%string; "-c"%string]
                  initial_process) ∧
  Run type_name_of exception_message main_counts Posix app2 thread1 []
      (snd (Run type_name_of exception_message main_counts Posix app1 thread1
              ["icinga2"%string; "-c"%string] initial_process))
  = (AssertionFailed,
     Run_prologue Posix app1 thread1 ["icinga2"%string; "-c"%string] initial_process).
Proof.
  destruct (Run_normal_return type_name_of exception_message main_counts Posix
              app1 thread1 ["icinga2"%string; "-c"%string] initial_process 2
              (Run_prologue Posix app1 thread1 ["icinga2"%string; "-c"%string]
                 initial_process) eq_refl eq_refl)
    as (_ & Hplain & _ & Hagain).
  split.
  - apply Hplain. reflexivity.
  - apply (Hagain eq_refl app1 eq_refl).
Defined.

(** ** The main thread *)

Lemma exec_MainThreadID (platform : Platform) (o : Op) (p : Process) :
  m_MainThreadID (exec platform o p)
  = match o with
    | OpRunPrologue _ tid _ => Some tid
    | _ => m_MainThreadID p
    end.
Proof.
  destruct o; cbn [exec]; try done.
  - destruct platform; simpl; [done|]. by destruct debugger_present.
  - by destruct platform.
  - unfold SigIntHandler, CtrlHandler. by destruct platform, (GetInstance p).
  - unfold UnregisterComponent. simpl. by destruct (m_Components p !! GetName c).
  - unfold Application_dtor.
    assert (∀ es q, m_MainThreadID (foldl (fun q c => emit (Component_Stop c) q) q es)
                    = m_MainThreadID q) as Hfold.
    { induction es as [|c es IH]; intros q; [done|]. simpl. by rewrite IH. }
    destruct platform; simpl; by rewrite Hfold.
Qed.

(** X8.  The main thread is the thread that called [Run], and only [Run]
    decides it.  After the prologue of [Run] called by [tid],
    [IsMainThread] holds of [tid] and of no other thread, and it goes on
    doing so through every operation but another [Run]; before any [Run]
    it holds of no thread.  [LoadComponent] called by a thread that is not
    the main thread fails its assertion and leaves the process untouched:
    nothing is logged, opened or registered. *)
Theorem main_thread_gate (platform : Platform) self tid argv (p : Process) :
  (∀ tid', IsMainThread tid' (Run_prologue platform self tid argv p) = true
           ↔ tid' = tid) ∧
  (∀ tid', IsMainThread tid' initial_process = false) ∧
  (∀ ops q tid',
     forallb (fun o => match o with OpRunPrologue _ _ _ => false | _ => true end) ops
       = true →
     IsMainThread tid' (run platform ops q) = IsMainThread tid' q) ∧
  (∀ os tid' path componentConfig q,
     IsMainThread tid' q = false →
     LoadComponent platform os tid' path componentConfig q = (AssertionFailed, q)) ∧
  (∀ os path componentConfig,
     fst (LoadComponent platform os tid path componentConfig
            (Run_prologue platform self tid argv p)) ≠ AssertionFailed).
Proof.
  assert (∀ tid', IsMainThread tid' (Run_prologue platform self tid argv p) = true
                  ↔ tid' = tid) as Hmain.
  { intros tid'. unfold IsMainThread.
    assert (m_MainThreadID (Run_prologue platform self tid argv p) = Some tid) as ->
      by (by destruct platform).
    rewrite bool_decide_eq_true. split; [by intros [= ->]|by intros ->]. }
  split; [done|]. split; [done|]. split; [|split].
  - intros ops. induction ops as [|o ops IH] using rev_ind; intros q tid' Hops; [done|].
    rewrite forallb_app in Hops. apply andb_true_iff in Hops as [Hops Ho].
    unfold run. rewrite foldl_app. cbn [foldl]. fold (run platform ops q).
    rewrite <- (IH q tid' Hops). unfold IsMainThread.
    rewrite exec_MainThreadID. destruct o; try done.
  - intros os tid' path cfg q Hq. unfold LoadComponent. by rewrite Hq.
  - intros os path cfg. unfold LoadComponent.
    rewrite (proj2 (Hmain tid) eq_refl). cbn [negb].
    destruct platform.
    + destruct (lt_dlopen os path) as [h|]; [|done].
      by destruct (lt_dlsym os h "CreateComponent") as [[c|]|].
    + destruct (LoadLibrary os path) as [h|]; [|done].
      by destruct (GetProcAddress os h "CreateComponent") as [[c|]|].
Qed.

Lemma main_thread_gate_witness :
  IsMainThread thread1
    (run Posix [OpRegisterComponent compA; OpShutdown] running_process) = true ∧
  LoadComponent Posix system_with_factory thread2 "libdemo.so" 0%N running_process
  = (AssertionFailed, running_process).
Proof.
  destruct (main_thread_gate Posix app1 thread1 ["icinga2"%string] initial_process)
    as (_ & _ & Hframe & Hother & _).
  split.
  - rewrite Hframe; reflexivity.
  - apply Hother. reflexivity.
Defined.

(** ** Loading a component *)

(** X9.  A successful load.  On the main thread, when the library opens and
    its factory hands out component [c], [LoadComponent] returns [c]; it
    logs the load, then attaches the configuration to [c], then registers
    and starts it, in this order and with no other call; afterwards the
    name of [c] is bound to [c], every other name is bound as before and
    the statics are untouched.  A factory that hands out a null pointer is
    undefined behaviour. *)
Theorem LoadComponent_success platform os tid path componentConfig p hModule c :
  IsMainThread tid p = true →
  open_library platform os path = Some hModule →
  (factory_symbol platform os hModule = Some (Some c) →
     ∃ q, LoadComponent platform os tid path componentConfig p = (Returns c, q) ∧
          trace q = trace p ++
            [Logger_Write LogInformation "base"
               ("Loading component '" +:+ path +:+ "'");
             Component_SetConfig c componentConfig;
             Component_Start c] ∧
          (∀ n, GetComponent n q
                = if decide (n = GetName c) then Some c else GetComponent n p) ∧
          m_ShuttingDown q = m_ShuttingDown p ∧
          m_Instance q = m_Instance p) ∧
  (factory_symbol platform os hModule = Some None →
     fst (LoadComponent platform os tid path componentConfig p) = UndefinedBehaviour).
Proof.
  intros Hmain Hopen. unfold LoadComponent. rewrite Hmain. cbn [negb].
  split.
  - intros Hsym.
    assert (∀ q', ∃ q,
      (Returns c, RegisterComponent c (emit (Component_SetConfig c componentConfig) q'))
        = (Returns c, q) ∧
      trace q = trace q' ++ [Component_SetConfig c componentConfig; Component_Start c] ∧
      (∀ n, GetComponent n q
            = if decide (n = GetName c) then Some c else GetComponent n q') ∧
      m_ShuttingDown q = m_ShuttingDown q' ∧ m_Instance q = m_Instance q') as Htail.
    { intros q'. eexists. split; [reflexivity|]. split.
      - rewrite RegisterComponent_trace. simpl. by rewrite <- app_assoc.
      - split; [|done]. intros n. by rewrite GetComponent_Register. }
    destruct platform; simpl in Hopen, Hsym; rewrite Hopen; cbn iota;
      rewrite Hsym;
      match goal with
      | |- context [emit (Component_SetConfig c componentConfig) ?q'] =>
          destruct (Htail q') as (q & Heq & Htr & Hget & Hflag & Hinst)
      end;
      exists q; (split; [exact Heq|]);
      (split; [rewrite Htr; simpl; by rewrite <- app_assoc|]);
      (split; [exact Hget|]); by split.
  - intros Hsym. destruct platform; simpl in Hopen, Hsym; rewrite Hopen; cbn iota;
      by rewrite Hsym.
Qed.

Lemma LoadComponent_success_witness :
  ∃ q, LoadComponent Posix system_with_factory thread1 "libdemo.so" 5%N running_process
       = (Returns compA, q) ∧
       GetComponent "A" q = Some compA.
Proof.
  destruct (LoadComponent_success Posix system_with_factory thread1 "libdemo.so" 5%N
              running_process 1%N compA eq_refl eq_refl) as [Hok _].
  destruct (Hok eq_refl) as (q & Hrun & _ & Hget & _).
  exists q. split; [exact Hrun|]. apply (Hget "A"%string).
Defined.

(** ** The executable path: what a call leaves behind *)

Lemma run_GetExePath_result (platform : Platform) (ops : list Op) (p : Process) :
  GetExePath_result (run platform ops p) = GetExePath_result p.
Proof.
  revert p. induction ops as [|o ops IH]; intros p; [done|].
  cbn [run foldl]. fold (run platform ops (exec platform o p)).
  by rewrite IH, exec_GetExePath_result.
Qed.

(** A call writes the cache on success and nothing otherwise. *)
Lemma GetExePath_state (platform : Platform) (os : System) (p : Process) :
  match fst (GetExePath platform os p) with
  | Returns r => snd (GetExePath platform os p) = set_GetExePath_result r p
  | _ => snd (GetExePath platform os p) = p
  end.
Proof.
  unfold GetExePath. destruct (empty (GetExePath_result p)) eqn:E; cbn [negb].
  - destruct platform.
    + destruct (m_Arguments p) as [|argv0 ?]; [done|].
      destruct (getcwd os) as [wd|]; [|done].
      destruct (find_first_of "/" argv0);
        [|destruct (getenv os "PATH") as [pathEnv|];
          [destruct (search_paths os (split ":" pathEnv) argv0); [|done]|]];
        match goal with
        | |- context [realpath os ?path] => by destruct (realpath os path)
        end.
    + by destruct (String.length (GetModuleFileName os) =? 0)%nat.
  - simpl. by destruct p.
Qed.

(** X10.  [GetExePath] writes nothing but its cache: whatever it answers,
    the trace, the registry, the arguments and the statics are as before.
    A call that does not return a path leaves the whole process as it was,
    the cache still empty, so that the next call asks the system again
    and answers as it would have from the state before. *)
Theorem GetExePath_touches_only_cache (platform : Platform) (os : System)
    (p : Process) :
  trace (snd (GetExePath platform os p)) = trace p ∧
  m_Components (snd (GetExePath platform os p)) = m_Components p ∧
  m_Arguments (snd (GetExePath platform os p)) = m_Arguments p ∧
  m_Instance (snd (GetExePath platform os p)) = m_Instance p ∧
  m_ShuttingDown (snd (GetExePath platform os p)) = m_ShuttingDown p ∧
  m_MainThreadID (snd (GetExePath platform os p)) = m_MainThreadID p ∧
  (∀ r, fst (GetExePath platform os p) = Returns r →
     GetExePath_result (snd (GetExePath platform os p)) = r) ∧
  (∀ e, fst (GetExePath platform os p) = Throws e →
     snd (GetExePath platform os p) = p ∧
     GetExePath_result p = EmptyString ∧
     ∀ os', GetExePath platform os' (snd (GetExePath platform os p))
            = GetExePath platform os' p).
Proof.
  pose proof (GetExePath_state platform os p) as Hst.
  assert (∀ e, fst (GetExePath platform os p) = Throws e →
               GetExePath_result p = EmptyString) as Hempty.
  { intros e. unfold GetExePath.
    destruct (GetExePath_result p); [done|]. discriminate. }
  destruct (fst (GetExePath platform os p)) as [r| e | |] eqn:Hfst; rewrite Hst.
  - do 6 (split; [done|]). split; [by intros ? [= ->]|]. by intros ? [=].
  - do 6 (split; [done|]). split; [by intros ? [=]|].
    intros e' _. split; [done|]. split; [by apply (Hempty e)|done].
  - do 6 (split; [done|]). split; by intros ? [=].
  - do 6 (split; [done|]). split; by intros ? [=].
Qed.

(** X11.  [GetExePath] needs argument 0 on POSIX.  Its outcome is undefined
    behaviour exactly when the platform is POSIX, the cache is empty and
    the argument vector is empty, which is the state before [Run]; after
    [Run] was given at least argument 0 it never is.  On Windows the
    arguments are not consulted.  The call never fails an assertion. *)
Theorem GetExePath_needs_arguments (platform : Platform) (os : System) (p : Process) :
  (fst (GetExePath platform os p) = UndefinedBehaviour
   ↔ platform = Posix ∧ GetExePath_result p = EmptyString ∧ m_Arguments p = []) ∧
  fst (GetExePath platform os p) ≠ AssertionFailed ∧
  fst (GetExePath Posix os initial_process) = UndefinedBehaviour ∧
  (∀ self tid argv0 rest,
     fst (GetExePath platform os (Run_prologue platform self tid (argv0 :: rest) p))
     ≠ UndefinedBehaviour).
Proof.
  assert (∀ q, fst (GetExePath platform os q) = UndefinedBehaviour
               ↔ platform = Posix ∧ GetExePath_result q = EmptyString
                 ∧ m_Arguments q = []) as Hiff.
  { intros q. unfold GetExePath.
    destruct (GetExePath_result q) as [|ch rest] eqn:Hc; cbn [empty negb].
    - destruct platform.
      + destruct (m_Arguments q) as [|argv0 ?].
        * by split.
        * split; [|by intros (_ & _ & ?)].
          destruct (getcwd os) as [wd|]; [|done].
          destruct (find_first_of "/" argv0);
            [|destruct (getenv os "PATH") as [pathEnv|];
              [destruct (search_paths os (split ":" pathEnv) argv0); [|done]|]];
            match goal with
            | |- context [realpath os ?path] => by destruct (realpath os path)
            end.
      + split; [|by intros (? & _)].
        by destruct (String.length (GetModuleFileName os) =? 0)%nat.
    - split; [done|]. by intros (_ & ? & _). }
  split; [apply Hiff|]. split; [|split].
  - unfold GetExePath. destruct (empty (GetExePath_result p)); cbn [negb]; [|done].
    destruct platform.
    + destruct (m_Arguments p) as [|argv0 ?]; [done|].
      destruct (getcwd os) as [wd|]; [|done].
      destruct (find_first_of "/" argv0);
        [|destruct (getenv os "PATH") as [pathEnv|];
          [destruct (search_paths os (split ":" pathEnv) argv0); [|done]|]];
        match goal with
        | |- context [realpath os ?path] => by destruct (realpath os path)
        end.
    + by destruct (String.length (GetModuleFileName os) =? 0)%nat.
  - done.
  - intros self tid argv0 rest Hub. apply Hiff in Hub as (_ & _ & Hargs).
    by rewrite Run_prologue_Arguments in Hargs.
Qed.

(** X12.  The cache outlives everything else the application does.  Once a
    call has returned a non-empty path, every later call returns that
    path, after any run of operations of the application and against any
    state of the system; the process those operations leave is not
    changed by the call. *)
Theorem GetExePath_cache_survives platform os p r p1 :
  GetExePath platform os p = (Returns r, p1) →
  r ≠ EmptyString →
  ∀ ops os',
    GetExePath platform os' (run platform ops p1)
    = (Returns r, run platform ops p1).
Proof.
  intros Hcall Hr ops os'.
  destruct (GetExePath_returns_cache platform os p p1 r Hcall) as (Hcache & _).
  assert (GetExePath_result (run platform ops p1) = r) as Hrun
    by (by rewrite run_GetExePath_result).
  rewrite <- Hrun at 1. apply GetExePath_cached. rewrite Hrun. by destruct r.
Qed.

Lemma GetExePath_cache_survives_witness :
  GetExePath Posix bare_system
    (run Posix [OpRegisterComponent compA; OpShutdown; OpDestruct]
       (snd (GetExePath Posix system_with_PATH running_process)))
  = (Returns "/usr/bin/icinga2"%string,
     run Posix [OpRegisterComponent compA; OpShutdown; OpDestruct]
       (snd (GetExePath Posix system_with_PATH running_process))).
Proof.
  apply (GetExePath_cache_survives Posix system_with_PATH running_process
           "/usr/bin/icinga2"
           (snd (GetExePath Posix system_with_PATH running_process))).
  - reflexivity.
  - discriminate.
Defined.

Lemma GetExePath_touches_only_cache_witness :
  snd (GetExePath Posix bare_system running_process) = running_process ∧
  GetExePath Posix system_with_PATH
    (snd (GetExePath Posix bare_system running_process))
  = GetExePath Posix system_with_PATH running_process.
Proof.
  destruct (GetExePath_touches_only_cache Posix bare_system running_process)
    as (_ & _ & _ & _ & _ & _ & _ & Hfail).
  destruct (Hfail (PosixException "getcwd failed" 2) eq_refl) as (Hsame & _ & Hretry).
  split; [exact Hsame|apply Hretry].
Defined.

Lemma GetExePath_needs_arguments_witness :
  fst (GetExePath Posix system_with_PATH initial_process) = UndefinedBehaviour.
Proof.
  destruct (GetExePath_needs_arguments Posix system_with_PATH initial_process)
    as (Hiff & _).
  apply Hiff. by repeat split.
Defined.

(** ** Splitting PATH *)

Lemma split_nonempty (sep : ascii) (s : string) : split sep s ≠ [].
Proof.
  destruct s as [|c s]; simpl; [done|].
  destruct (Ascii.eqb c sep); [done|]. by destruct (split sep s).
Qed.

Lemma join_cons_char (sep c : ascii) (tok : string) (toks : list string) :
  join sep (String c tok :: toks) = String c (join sep (tok :: toks)).
Proof. simpl. by destruct toks. Qed.

Lemma join_split (sep : ascii) (s : string) : join sep (split sep s) = s.
Proof.
  induction s as [|c s IH]; [done|]. cbn [split].
  destruct (Ascii.eqb c sep) eqn:E.
  - apply Ascii.eqb_eq in E as ->.
    pose proof (split_nonempty sep s) as Hne.
    destruct (split sep s) as [|tok toks]; [done|].
    cbn [join]. cbn [join] in IH. by rewrite IH.
  - pose proof (split_nonempty sep s) as Hne.
    destruct (split sep s) as [|tok toks]; [done|].
    by rewrite join_cons_char, IH.
Qed.

Lemma split_tokens_clean (sep : ascii) (s tok : string) :
  tok ∈ split sep s → find_first_of sep tok = None.
Proof.
  revert tok. induction s as [|c s IH]; intros tok; cbn [split].
  - by intros ->%list_elem_of_singleton.
  - destruct (Ascii.eqb c sep) eqn:E.
    + intros [->|Hin]%elem_of_cons; [done|]. by apply IH.
    + pose proof (split_nonempty sep s) as Hne.
      destruct (split sep s) as [|t toks]; [done|].
      intros [->|Hin]%elem_of_cons.
      * simpl. rewrite E. rewrite IH; [done|]. by left.
      * apply IH. by right.
Qed.

Lemma split_clean_token (sep : ascii) (tok : string) :
  find_first_of sep tok = None → split sep tok = [tok].
Proof.
  induction tok as [|c tok IH]; [done|]. simpl.
  destruct (Ascii.eqb c sep); [done|].
  destruct (find_first_of sep tok); [done|]. intros _. by rewrite IH.
Qed.

Lemma split_app_sep (sep : ascii) (tok rest : string) :
  find_first_of sep tok = None →
  split sep (tok +:+ String sep rest) = tok :: split sep rest.
Proof.
  induction tok as [|c tok IH]; simpl.
  - by rewrite Ascii.eqb_refl.
  - destruct (Ascii.eqb c sep); [done|].
    destruct (find_first_of sep tok); [done|]. intros _. by rewrite IH.
Qed.

(** X13.  Splitting [PATH].  [split] never answers an empty list (the
    empty string gives one empty directory), no token holds the separator,
    and putting the tokens together with the separator gives the string
    back; conversely every non-empty list of separator-free tokens is the
    split of its joined string.  So the directories tried are exactly the
    fields of [PATH], empty fields included, in their order. *)
Theorem split_join_roundtrip (sep : ascii) :
  (∀ s, split sep s ≠ []) ∧
  split sep EmptyString = [EmptyString] ∧
  (∀ s, join sep (split sep s) = s) ∧
  (∀ s tok, tok ∈ split sep s → find_first_of sep tok = None) ∧
  (∀ toks, toks ≠ [] →
     (∀ tok, tok ∈ toks → find_first_of sep tok = None) →
     split sep (join sep toks) = toks).
Proof.
  split; [apply split_nonempty|]. split; [done|].
  split; [apply join_split|]. split; [apply split_tokens_clean|].
  induction toks as [|tok toks IH]; intros Hne Hclean; [done|].
  destruct toks as [|tok' toks].
  - simpl. apply split_clean_token, Hclean. by left.
  - change (join sep (tok :: tok' :: toks))
      with (tok +:+ String sep (join sep (tok' :: toks))).
    rewrite split_app_sep by (apply Hclean; by left).
    f_equal. apply IH; [done|]. intros t Ht. apply Hclean. by right.
Qed.

Lemma split_join_roundtrip_witness :
  split ":" (join ":" ["/usr/local/bin"; ""; "/usr/bin"]%string)
  = ["/usr/local/bin"; ""; "/usr/bin"]%string.
Proof.
  destruct (split_join_roundtrip ":") as (_ & _ & _ & _ & Hback).
  apply Hback; [done|].
  intros tok Htok. apply list_elem_of_In in Htok. simpl in Htok.
  destruct Htok as [<-|[<-|[<-|[]]]]; reflexivity.
Defined.

(** ** The event loop: shutdown during a batch *)




(** ** From the interrupt to the loop *)

(** X15.  An interrupt while the application runs stops the loop before it
    starts.  In a process that is not shutting down, once [Run] has
    published the singleton an interrupt sets the flag, and a
    [RunEventLoop] entered afterwards, after any further operations,
    returns at once: no cleanup, no timers, no wait.  Before [Run] has
    published a singleton the interrupt finds no instance and changes
    nothing. *)
Theorem interrupt_stops_the_loop {World : Type} (platform : Platform)
    (rt : Runtime World) self tid argv (p : Process) :
  m_ShuttingDown p = false →
  (∀ ops w fuel,
     RunEventLoop platform rt fuel
       (run platform (OpInterrupt :: ops) (Run_prologue platform self tid argv p)) w
     = Some (run platform (OpInterrupt :: ops)
               (Run_prologue platform self tid argv p), w)) ∧
  (m_Instance p = None → exec platform OpInterrupt p = p).
Proof.
  intros Hp. split.
  - intros ops w fuel.
    assert (m_ShuttingDown
              (run platform (OpInterrupt :: ops)
                 (Run_prologue platform self tid argv p)) = true) as Hflag.
    { cbn [run foldl].
      fold (run platform ops
              (exec platform OpInterrupt (Run_prologue platform self tid argv p))).
      apply run_monotone.
      rewrite (exec_Interrupt_trips platform _ self); [done|].
      unfold GetInstance.
      assert (m_ShuttingDown (Run_prologue platform self tid argv p) = false) as ->
        by (by destruct platform).
      by destruct platform. }
    destruct fuel; cbn [RunEventLoop]; by rewrite Hflag.
  - intros Hinst. apply exec_Interrupt_idle. unfold GetInstance.
    by rewrite Hp.
Qed.

Lemma interrupt_stops_the_loop_witness :
  RunEventLoop Posix sample_runtime 0
    (run Posix [OpInterrupt; OpRegisterComponent compA] running_process) 0%nat
  = Some (run Posix [OpInterrupt; OpRegisterComponent compA] running_process, 0%nat).
Proof.
  destruct (interrupt_stops_the_loop Posix sample_runtime app1 thread1
              ["icinga2"%string] initial_process eq_refl) as [Hloop _].
  apply (Hloop [OpRegisterComponent compA] 0%nat 0%nat).
Defined.

(** ** What leaves the registry alone *)

Lemma exec_Components (platform : Platform) (o : Op) (p : Process) :
  writes_registry o = false → m_Components (exec platform o p) = m_Components p.
Proof.
  destruct o; cbn [exec writes_registry]; intros Hw; try done.
  - destruct platform; simpl; [done|]. by destruct debugger_present.
  - by destruct platform.
  - unfold SigIntHandler, CtrlHandler. by destruct platform, (GetInstance p).
Qed.

(** X16.  Shutting down is not unregistering.  Construction, [Run]'s
    prologue, the release of the singleton, [Shutdown] and the interrupt
    handlers leave the registry as it is: after any run of them
    [GetComponent] answers as before, also while [GetInstance] already
    answers null. *)
Theorem lifecycle_leaves_registry (platform : Platform) (ops : list Op) (p : Process) :
  forallb (fun o => negb (writes_registry o)) ops = true →
  m_Components (run platform ops p) = m_Components p ∧
  ∀ n, GetComponent n (run platform ops p) = GetComponent n p.
Proof.
  intros Hops.
  assert (m_Components (run platform ops p) = m_Components p) as Hm.
  { revert p. induction ops as [|o ops IH]; intros p; [done|].
    simpl in Hops. apply andb_true_iff in Hops as [Ho Hops].
    cbn [run foldl]. fold (run platform ops (exec platform o p)).
    rewrite IH by done. apply exec_Components. by destruct (writes_registry o). }
  split; [done|]. intros n. by rewrite !GetComponent_lookup, Hm.
Qed.

Lemma lifecycle_leaves_registry_witness :
  GetComponent "A" (run Posix [OpShutdown; OpInterrupt; OpInstanceReset]
                      (RegisterComponent compA running_process)) = Some compA ∧
  GetInstance (run Posix [OpShutdown; OpInterrupt; OpInstanceReset]
                 (RegisterComponent compA running_process)) = None.
Proof.
  destruct (lifecycle_leaves_registry Posix [OpShutdown; OpInterrupt; OpInstanceReset]
              (RegisterComponent compA running_process) eq_refl) as [_ Hget].
  split; [|reflexivity]. rewrite Hget. reflexivity.
Defined.
